(** * Form validators of [horizon.framework.util.validators]

    A shallow embedding of [validators.js]: the directives
    [validateNumberMax], [validateNumberMin], [notBlank] and
    [hzPasswordMatch], with the properties their specification states.

    The directives are closures over a scope, an attribute object and an
    [ngModel] controller.  The embedding keeps these objects in an explicit
    state and writes each closure as a computation over that state. *)

From Stdlib Require Import Floats.PrimFloat Strings.Ascii Strings.String.
From Stdlib Require Floats.FloatAxioms Floats.SpecFloat.
From stdpp Require Import gmap strings functions.

Set Default Proof Using "Type".

(** ** JavaScript values

    The values carried by a form field and supplied by a threshold
    expression: [undefined], [null], booleans, numbers and strings.  A
    number is an IEEE 754 binary64 float, which is what [PrimFloat.float]
    is. *)

Inductive jsvalue : Type :=
  | Undefined
  | Null
  | Bool (b : bool)
  | Num (n : float)
  | Str (s : string).

Inductive error : Type :=
  | TypeError.

(** How the evaluation of a piece of JavaScript ends: with a result, or with
    a thrown exception. *)
Inductive completion (A : Type) : Type :=
  | Normal (a : A)
  | Throw (e : error).
Arguments Normal {A} a.
Arguments Throw {A} e.

(** [angular.isDefined(v)] is [typeof v !== 'undefined']. *)
Definition isDefined (v : jsvalue) : bool :=
  match v with
  | Undefined => false
  | _ => true
  end.

(** [a === b]: same type and same value; on numbers the IEEE equality, so
    that [NaN] differs from itself and the two zeros are equal. *)
Definition strict_equals (a b : jsvalue) : bool :=
  match a, b with
  | Undefined, Undefined => true
  | Null, Null => true
  | Bool x, Bool y => Bool.eqb x y
  | Num x, Num y => PrimFloat.eqb x y
  | Str x, Str y => String.eqb x y
  | _, _ => false
  end.

Section Relational.
(** The conversion of a string to a number is the engine's
    [StringToNumber]; the rules never look inside it. *)
Variable StringToNumber : string → float.

Definition ToNumber (v : jsvalue) : float :=
  match v with
  | Undefined => PrimFloat.nan
  | Null => PrimFloat.zero
  | Bool true => PrimFloat.one
  | Bool false => PrimFloat.zero
  | Num n => n
  | Str s => StringToNumber s
  end.

(** [a < b] on primitives: two strings are compared by their code units,
    anything else as numbers, and a comparison with [NaN] is false. *)
Definition js_lt (a b : jsvalue) : bool :=
  match a, b with
  | Str s, Str t => String.ltb s t
  | _, _ => PrimFloat.ltb (ToNumber a) (ToNumber b)
  end.

(** [a > b] is [b < a]. *)
Definition js_gt (a b : jsvalue) : bool := js_lt b a.
End Relational.

(** A [StringToNumber] for strings of decimal digits, to run the rules on
    concrete inputs.  It is exact on up to fifteen digits and on the empty
    string; any string with another character gives [NaN] here. *)
Definition digit_of (c : Ascii.ascii) : option float :=
  match c with
  | "0"%char => Some 0%float | "1"%char => Some 1%float
  | "2"%char => Some 2%float | "3"%char => Some 3%float
  | "4"%char => Some 4%float | "5"%char => Some 5%float
  | "6"%char => Some 6%float | "7"%char => Some 7%float
  | "8"%char => Some 8%float | "9"%char => Some 9%float
  | _ => None
  end.

Fixpoint digits_go (acc : float) (s : string) : float :=
  match s with
  | EmptyString => acc
  | String c s' =>
      match digit_of c with
      | Some d => digits_go (PrimFloat.add (PrimFloat.mul acc 10%float) d) s'
      | None => PrimFloat.nan
      end
  end.

Definition digitsToNumber (s : string) : float := digits_go PrimFloat.zero s.

(** ** The state monad of the embedding

    A computation reads and writes a state and ends in a completion. *)

Definition M (S A : Type) : Type := S → completion A * S.

Definition ret {S A} (a : A) : M S A := λ s, (Normal a, s).

Definition bind {S A B} (c : M S A) (k : A → M S B) : M S B :=
  λ s, match c s with
       | (Normal a, s') => k a s'
       | (Throw e, s') => (Throw e, s')
       end.

Definition throw {S A} (e : error) : M S A := λ s, (Throw e, s).
Definition get {S} : M S S := λ s, (Normal s, s).
Definition modify {S} (f : S → S) : M S unit := λ s, (Normal tt, f s).

Declare Scope js_scope.
Delimit Scope js_scope with js.
Notation "'let*' x := c 'in' k" := (bind c (λ x, k))
  (at level 10, x name, c at level 100, k at level 200) : js_scope.
Notation "c ;;; k" := (bind c (λ _, k))
  (at level 100, k at level 200, right associativity) : js_scope.
Open Scope js_scope.

(** ** The [ngModel] controller

    What the directives use of the controller [ctrl]: its name, the view
    and the model value, the two pipelines, the registry of validity flags
    written by [$setValidity], and its [$isEmpty] method. *)

(** The closures that the link functions put into the pipelines. *)
Inductive Hook : Type :=
  | maxValidatorFn
  | minValidatorFn
  | notBlankFn.

Record NgModelController : Type := mkCtrl {
  name : option string;
  viewValue : jsvalue;
  modelValue : jsvalue;
  parsers : list Hook;
  formatters : list Hook;
  validity : gmap string bool;
  isEmpty : jsvalue → bool
}.

(** The framework's own [$isEmpty]:
    [isUndefined(v) || v === '' || v === null || v !== v]. *)
Definition ngIsEmpty (v : jsvalue) : bool :=
  match v with
  | Undefined | Null => true
  | Str s => String.eqb s ""
  | Num n => negb (PrimFloat.eqb n n)
  | Bool _ => false
  end.

Definition with_validity (g : gmap string bool → gmap string bool)
    (c : NgModelController) : NgModelController :=
  mkCtrl (name c) (viewValue c) (modelValue c) (parsers c) (formatters c)
    (g (validity c)) (isEmpty c).

Definition with_viewValue (v : jsvalue) (c : NgModelController) : NgModelController :=
  mkCtrl (name c) v (modelValue c) (parsers c) (formatters c) (validity c) (isEmpty c).

Definition with_modelValue (v : jsvalue) (c : NgModelController) : NgModelController :=
  mkCtrl (name c) (viewValue c) v (parsers c) (formatters c) (validity c) (isEmpty c).

Definition with_parsers (g : list Hook → list Hook) (c : NgModelController)
    : NgModelController :=
  mkCtrl (name c) (viewValue c) (modelValue c) (g (parsers c)) (formatters c)
    (validity c) (isEmpty c).

Definition with_formatters (g : list Hook → list Hook) (c : NgModelController)
    : NgModelController :=
  mkCtrl (name c) (viewValue c) (modelValue c) (parsers c) (g (formatters c))
    (validity c) (isEmpty c).

(** [ctrl.$setValidity(key, isValid)] on the controller object. *)
Definition ctrl_setValidity (key : string) (isValid : bool)
    (c : NgModelController) : NgModelController :=
  with_validity (insert key isValid) c.

(** The flag a rule has written, [None] before its first evaluation. *)
Definition flag (key : string) (c : NgModelController) : option bool :=
  validity c !! key.

(** ** A field with its directives

    The link function of a directive receives [scope], [attrs] and [ctrl];
    the closures it creates read them when they are called, so the three
    objects are the state.  [scope] is the expression evaluator
    [scope.$eval] on the text of an expression; [attrs] maps the normalized
    attribute names to their current, interpolated text; [observers] holds
    the callbacks registered with [attrs.$observe]. *)

Inductive Observer : Type :=
  | maxObserverFn
  | minObserverFn.

Record Field : Type := mkField {
  scope : string → jsvalue;
  attrs : gmap string string;
  observers : list (string * Observer);
  ctrl : NgModelController
}.

Definition with_ctrl (g : NgModelController → NgModelController) (f : Field) : Field :=
  mkField (scope f) (attrs f) (observers f) (g (ctrl f)).

Definition with_attrs (g : gmap string string → gmap string string) (f : Field) : Field :=
  mkField (scope f) (g (attrs f)) (observers f) (ctrl f).

Definition with_observers (g : list (string * Observer) → list (string * Observer))
    (f : Field) : Field :=
  mkField (scope f) (attrs f) (g (observers f)) (ctrl f).

(** [scope.$eval(attrs.key)]: an attribute that is absent reads as
    [undefined], which evaluates to [undefined]. *)
Definition eval_attr (key : string) (f : Field) : jsvalue :=
  match attrs f !! key with
  | Some e => scope f e
  | None => Undefined
  end.

(** [ctrl.$setValidity(key, isValid)] as a step of a closure. *)
Definition setValidity (key : string) (isValid : bool) : M Field unit :=
  modify (with_ctrl (ctrl_setValidity key isValid)).

Section BoundCheck.
Variable StringToNumber : string → float.

(** [validators.js], lines 59-69. *)
Definition maxValidator (value : jsvalue) : M Field jsvalue :=
  let* f := get in
  let max := eval_attr "validateNumberMax" f in
  (if isDefined max && negb (isEmpty (ctrl f) value)
        && js_gt StringToNumber value max
   then setValidity "validateNumberMax" false
   else setValidity "validateNumberMax" true) ;;;
  ret value.

(** [validators.js], lines 119-129. *)
Definition minValidator (value : jsvalue) : M Field jsvalue :=
  let* f := get in
  let min := eval_attr "validateNumberMin" f in
  (if isDefined min && negb (isEmpty (ctrl f) value)
        && js_lt StringToNumber value min
   then setValidity "validateNumberMin" false
   else setValidity "validateNumberMin" true) ;;;
  ret value.
End BoundCheck.

(** [viewValue.length] (line 148).  Reading a property of [undefined] or
    [null] throws a [TypeError]; a string has the number of its code units;
    a boolean and a number have no [length], and the property reads as
    [undefined], here [None]. *)
Definition length_of (v : jsvalue) : completion (option nat) :=
  match v with
  | Undefined | Null => Throw TypeError
  | Str s => Normal (Some (String.length s))
  | Bool _ | Num _ => Normal None
  end.

(** [if (viewValue.length)]: a length is truthy when it is not zero, and
    [undefined] is falsy. *)
Definition length_truthy (v : jsvalue) : completion bool :=
  match length_of v with
  | Normal (Some n) => Normal (negb (Nat.eqb n 0))
  | Normal None => Normal false
  | Throw e => Throw e
  end.

Definition lift {S A} (c : completion A) : M S A := λ s, (c, s).

(** [validators.js], lines 147-156: the parser that [notBlank] installs. *)
Definition notBlank (viewValue : jsvalue) : M Field jsvalue :=
  let* has_length := lift (length_truthy viewValue) in
  if has_length : bool
  then setValidity "notBlank" true ;;; ret viewValue
  else setValidity "notBlank" false ;;; ret Undefined.

Section Pipeline.
Variable StringToNumber : string → float.

Definition run_hook (h : Hook) (v : jsvalue) : M Field jsvalue :=
  match h with
  | maxValidatorFn => maxValidator StringToNumber v
  | minValidatorFn => minValidator StringToNumber v
  | notBlankFn => notBlank v
  end.

(** The callbacks of lines 76-78 and 136-138; the new text of the
    attribute is passed to them and ignored. *)
Definition run_observer (o : Observer) : M Field unit :=
  match o with
  | maxObserverFn =>
      let* f := get in
      maxValidator StringToNumber (modelValue (ctrl f)) ;;; ret tt
  | minObserverFn =>
      let* f := get in
      minValidator StringToNumber (modelValue (ctrl f)) ;;; ret tt
  end.

(** The link functions.  The directives require [ngModel], so [ctrl] is
    there and the guard [if (!ctrl) return] is never taken. *)
Definition validateNumberMax : M Field unit :=
  modify (with_ctrl (with_parsers (λ l, l ++ [maxValidatorFn]))) ;;;
  modify (with_ctrl (with_formatters (λ l, l ++ [maxValidatorFn]))) ;;;
  modify (with_observers (λ l, l ++ [("validateNumberMax", maxObserverFn)])).

Definition validateNumberMin : M Field unit :=
  modify (with_ctrl (with_parsers (λ l, l ++ [minValidatorFn]))) ;;;
  modify (with_ctrl (with_formatters (λ l, l ++ [minValidatorFn]))) ;;;
  modify (with_observers (λ l, l ++ [("validateNumberMin", minObserverFn)])).

(** [ctrl.$parsers.unshift(...)], line 147. *)
Definition notBlank_link : M Field unit :=
  modify (with_ctrl (with_parsers (cons notBlankFn))).

(** *** The host's side of the hooks

    The framework that calls the hooks is not part of the repository.  The
    three definitions below are its part, as the specification describes
    the interfaces consumed from it. *)

(** Modelled from the spec: the value-parsing and formatting pipeline of
    the host framework, whose hooks are invoked on every change of the
    model or view value.  The hooks of a pipeline are called one after the
    other, each on the result of the one before. *)
Fixpoint run_hooks (hs : list Hook) (v : jsvalue) : M Field jsvalue :=
  match hs with
  | [] => ret v
  | h :: hs' => let* v' := run_hook h v in run_hooks hs' v'
  end.

(** Modelled from the spec: the attribute-change observation mechanism of
    the host framework.  The observers registered for the attribute are
    called in the order of their registration. *)
Fixpoint run_observers (key : string) (os : list (string * Observer))
    : M Field unit :=
  match os with
  | [] => ret tt
  | (k, o) :: os' =>
      (if String.eqb k key then run_observer o else ret tt) ;;;
      run_observers key os'
  end.

Inductive Trigger : Type :=
  | ViewChange (v : jsvalue)
  | ModelChange (v : jsvalue)
  | AttrChange (key text : string).

(** Modelled from the spec: what the host framework does on each of the
    three triggers.  A change of the view value runs the parsers from first
    to last and stores the result as the model value; a change of the model
    value runs the formatters from last to first and stores the result as
    the view value; a change of an attribute stores its new text and calls
    its observers. *)
Definition fire (t : Trigger) : M Field unit :=
  match t with
  | ViewChange v =>
      modify (with_ctrl (with_viewValue v)) ;;;
      let* f := get in
      let* m := run_hooks (parsers (ctrl f)) v in
      modify (with_ctrl (with_modelValue m))
  | ModelChange v =>
      modify (with_ctrl (with_modelValue v)) ;;;
      let* f := get in
      let* w := run_hooks (reverse (formatters (ctrl f))) v in
      modify (with_ctrl (with_viewValue w))
  | AttrChange key text =>
      modify (with_attrs (insert key text)) ;;;
      let* f := get in
      run_observers key (observers f)
  end.
End Pipeline.

(** ** The page of [hzPasswordMatch]

    The rule works on two controller objects, [ctrl] and [scope.pw], which
    it reaches by reference each time it runs, and on the event handlers of
    the elements.  The controllers are a store indexed by reference; the
    handlers of an element are listed in the order they were bound. *)

(** The closure [passwordCheck] of one link: it holds [ctrl] and the scope
    whose [pw] is the reference controller, or [undefined]. *)
Inductive Handler : Type :=
  | passwordCheckFn (ctrl : nat) (pw : option nat).

Record Page : Type := mkPage {
  controllers : nat → NgModelController;
  listeners : nat → list (string * Handler)
}.

Definition with_controllers
    (g : (nat → NgModelController) → (nat → NgModelController)) (pg : Page) : Page :=
  mkPage (g (controllers pg)) (listeners pg).

Definition with_listeners
    (g : (nat → list (string * Handler)) → (nat → list (string * Handler)))
    (pg : Page) : Page :=
  mkPage (controllers pg) (g (listeners pg)).

(** [c.$setValidity(key, isValid)] on the controller object at [c]. *)
Definition setValidityOf (c : nat) (key : string) (isValid : bool) : M Page unit :=
  modify (with_controllers (λ cs, <[c := ctrl_setValidity key isValid (cs c)]> cs)).

(** [scope.pw.$modelValue] and [scope.pw.$name]: a property of [undefined]
    cannot be read. *)
Definition deref (pw : option nat) : M Page NgModelController :=
  match pw with
  | Some r => let* pg := get in ret (controllers pg r)
  | None => throw TypeError
  end.

(** [scope.$apply(fn)] calls [fn] inside a [try]: an exception of [fn] is
    caught there and handed to the framework's [$exceptionHandler], so it
    is not thrown to the caller of [$apply].  What the handler does with
    the exception, and the digest that follows, are the framework's
    business. *)
Definition scope_apply (fn : M Page unit) : M Page unit :=
  λ pg, match fn pg with
        | (Normal a, pg') => (Normal a, pg')
        | (Throw _, pg') => (Normal tt, pg')
        end.

(** [validators.js], lines 197-200: the function given to [scope.$apply]. *)
Definition passwordCheck_callback (ctrl : nat) (pw : option nat) : M Page unit :=
  let* pg := get in
  let mine := modelValue (controllers pg ctrl) in
  let* ref := deref pw in
  let match_ := strict_equals mine (modelValue ref) in
  setValidityOf ctrl "match" match_.

(** [validators.js], lines 196-201. *)
Definition passwordCheck (ctrl : nat) (pw : option nat) : M Page unit :=
  scope_apply (passwordCheck_callback ctrl pw).

Definition run_handler (h : Handler) : M Page unit :=
  match h with
  | passwordCheckFn ctrl pw => passwordCheck ctrl pw
  end.

(** [els.on(types, h)]: [h] is bound, on every element of the set, to each
    of the event types named in [types]. *)
Definition bind_types (types : list string) (h : Handler)
    (l : list (string * Handler)) : list (string * Handler) :=
  l ++ ((λ ty, (ty, h)) <$> types).

Definition on (els : list nat) (types : string) (h : Handler) : M Page unit :=
  modify (with_listeners (λ ls,
    foldl (λ ls el, <[el := bind_types (String.words types) h (ls el)]> ls) ls els)).

(** ['#' + x] for the [$name] of a controller, [undefined] without a
    [name] attribute. *)
Definition id_selector (n : option string) : string :=
  "#" +:+ match n with
         | Some s => s
         | None => "undefined"
         end.

Section Match.
(** [$(selector)]: the elements of the document that the selector finds. *)
Variable jQuery : string → list nat.

(** [validators.js], lines 193-209: the link function. *)
Definition hzPasswordMatch (element ctrl : nat) (pw : option nat) : M Page unit :=
  let* ref := deref pw in
  let pwElement := jQuery (id_selector (name ref)) in
  on pwElement "keyup change" (passwordCheckFn ctrl pw) ;;;
  on [element] "keyup change" (passwordCheckFn ctrl pw).
End Match.

(** An event of type [ty] on the element [el] calls the handlers bound to
    that type, in order; a handler that throws ends the dispatch. *)
Fixpoint run_handlers (ty : string) (hs : list (string * Handler)) : M Page unit :=
  match hs with
  | [] => ret tt
  | (t, h) :: hs' =>
      (if String.eqb t ty then run_handler h else ret tt) ;;;
      run_handlers ty hs'
  end.

Definition dispatch (el : nat) (ty : string) : M Page unit :=
  let* pg := get in run_handlers ty (listeners pg el).

(** What happens on a page between two renderings: an event on an element,
    or a field taking a new model value as its input changes. *)
Inductive PageEvent : Type :=
  | DomEvent (el : nat) (ty : string)
  | ModelInput (r : nat) (v : jsvalue).

(** One event on the page.  The page that a dispatch leaves is the same
    whether its handlers threw or not. *)
Definition page_step (pg : Page) (ev : PageEvent) : Page :=
  match ev with
  | DomEvent el ty => (dispatch el ty pg).2
  | ModelInput r v =>
      with_controllers (λ cs, <[r := with_modelValue v (cs r)]> cs) pg
  end.

Definition run_page (evs : list PageEvent) (pg : Page) : Page :=
  foldl page_step pg evs.


(** ** Concrete fields and pages, to run the rules on *)

(** A scope that knows the literals [10], [20] and [null]. *)
Definition literal_scope (e : string) : jsvalue :=
  if String.eqb e "10" then Num 10%float
  else if String.eqb e "20" then Num 20%float
  else if String.eqb e "null" then Null
  else Undefined.

Definition fresh_ctrl (n : string) : NgModelController :=
  mkCtrl (Some n) Undefined Undefined [] [] ∅ ngIsEmpty.

(** [<input name="quota" validate-number-max="10" validate-number-min="10">] *)
Definition quota_field : Field :=
  mkField literal_scope
    {[ "validateNumberMax" := "10"; "validateNumberMin" := "10" ]} []
    (fresh_ctrl "quota").

(** [<input name="quota" validate-number-max="null">] *)
Definition null_field : Field :=
  mkField literal_scope {[ "validateNumberMax" := "null" ]} [] (fresh_ctrl "quota").

(** [<input name="quota">], without a threshold attribute. *)
Definition plain_field : Field :=
  mkField literal_scope ∅ [] (fresh_ctrl "quota").

(** The field [quota_field] after the link functions of both bound-check
    directives have run. *)
Definition quota_linked : Field :=
  (validateNumberMin (validateNumberMax quota_field).2).2.

(** The form of the example in the source: the password input is the
    element 0, with the id and the name [psw] and the controller 0; its
    confirmation is the element 1, with the controller 1. *)
Definition form_jQuery (selector : string) : list nat :=
  if String.eqb selector "#psw" then [0] else [].

Definition form_page : Page :=
  mkPage (λ r, if Nat.eqb r 0
               then with_modelValue (Str "abc") (fresh_ctrl "psw")
               else with_modelValue (Str "abd") (fresh_ctrl "cnf"))
         (λ _, []).

(** The form when the reference of the confirmation has become
    [undefined] after the link: its handlers are bound to the element 1 and
    their [scope.pw] is missing. *)
Definition orphan_page : Page :=
  mkPage (controllers form_page)
         (λ el, if Nat.eqb el 1
                then [("keyup", passwordCheckFn 1 None);
                      ("change", passwordCheckFn 1 None)]
                else []).


(** ** What a rule leaves alone *)

(** Two controllers that differ at most in their validity flags. *)
Definition ctrl_frame (c c' : NgModelController) : Prop :=
  name c' = name c ∧ viewValue c' = viewValue c ∧ modelValue c' = modelValue c ∧
  parsers c' = parsers c ∧ formatters c' = formatters c ∧ isEmpty c' = isEmpty c.

(** Two fields that differ at most in the validity flags of the controller. *)
Definition field_frame (f f' : Field) : Prop :=
  scope f' = scope f ∧ attrs f' = attrs f ∧ observers f' = observers f ∧
  ctrl_frame (ctrl f) (ctrl f').

(** Two fields with the same hooks and observers, as the link functions
    left them; everything else is free to differ. *)
Definition same_wiring (f f' : Field) : Prop :=
  parsers (ctrl f') = parsers (ctrl f) ∧
  formatters (ctrl f') = formatters (ctrl f) ∧
  observers f' = observers f.

(** The controller that a handler writes to, and its reference. *)
Definition handler_ctrl (h : Handler) : nat :=
  match h with
  | passwordCheckFn c _ => c
  end.

Definition handler_pw (h : Handler) : option nat :=
  match h with
  | passwordCheckFn _ p => p
  end.

(** Two pages with the same handlers whose controllers differ at most in
    their flag [match]. *)
Definition page_frame (pg pg' : Page) : Prop :=
  listeners pg' = listeners pg ∧
  ∀ r, ctrl_frame (controllers pg r) (controllers pg' r) ∧
       ∀ key, key ≠ "match" →
              flag key (controllers pg' r) = flag key (controllers pg r).

(** The hooks of the two bound-check rules. *)
Definition is_bound_check (h : Hook) : bool :=
  match h with
  | maxValidatorFn | minValidatorFn => true
  | notBlankFn => false
  end.

#[global] Instance Hook_eq_dec : EqDecision Hook.
Proof. solve_decision. Defined.

(** The verdict of the max rule on [v] in the field [f]: the negation of
    the condition of line 61. *)
Definition max_verdict (StringToNumber : string → float) (f : Field) (v : jsvalue)
    : bool :=
  let max := eval_attr "validateNumberMax" f in
  negb (isDefined max && negb (isEmpty (ctrl f) v) && js_gt StringToNumber v max).

(** The verdict of the min rule, from line 121. *)
Definition min_verdict (StringToNumber : string → float) (f : Field) (v : jsvalue)
    : bool :=
  let min := eval_attr "validateNumberMin" f in
  negb (isDefined min && negb (isEmpty (ctrl f) v) && js_lt StringToNumber v min).

(** ** Several directives on one field *)

(** The three directives that put a rule on the field of an input. *)
Inductive Directive : Type :=
  | ValidateNumberMax
  | ValidateNumberMin
  | NotBlank.

(** The link function of a directive. *)
Definition link (d : Directive) : M Field unit :=
  match d with
  | ValidateNumberMax => validateNumberMax
  | ValidateNumberMin => validateNumberMin
  | NotBlank => notBlank_link
  end.

(** The link functions of the directives of an element, run one after the
    other on its field. *)
Definition link_all (ds : list Directive) (f : Field) : Field :=
  foldl (λ f d, (link d f).2) f ds.

(** The hook that a directive pushes at the end of both pipelines, and the
    observer it registers (lines 73-78 and 133-138); [notBlank] does
    neither. *)
Definition pushed_hook (d : Directive) : option Hook :=
  match d with
  | ValidateNumberMax => Some maxValidatorFn
  | ValidateNumberMin => Some minValidatorFn
  | NotBlank => None
  end.

Definition registered_observer (d : Directive) : option (string * Observer) :=
  match d with
  | ValidateNumberMax => Some ("validateNumberMax", maxObserverFn)
  | ValidateNumberMin => Some ("validateNumberMin", minObserverFn)
  | NotBlank => None
  end.

(** The parsers that the directives put in front with [unshift] (line 147). *)
Definition unshifted_hook (d : Directive) : option Hook :=
  match d with
  | NotBlank => Some notBlankFn
  | _ => None
  end.

(** The validity flag that a hook writes (lines 62-64, 122-124, 150-154),
    and the one that an observer writes through its validator. *)
Definition hook_key (h : Hook) : string :=
  match h with
  | maxValidatorFn => "validateNumberMax"
  | minValidatorFn => "validateNumberMin"
  | notBlankFn => "notBlank"
  end.

Definition observer_key (o : Observer) : string :=
  match o with
  | maxObserverFn => "validateNumberMax"
  | minObserverFn => "validateNumberMin"
  end.

Definition is_Str (v : jsvalue) : bool :=
  match v with
  | Str _ => true
  | _ => false
  end.

(** [<input name="quota" validate-number-max="20" validate-number-min="10">] *)
Definition range_field : Field :=
  mkField literal_scope
    {[ "validateNumberMax" := "20"; "validateNumberMin" := "10" ]} []
    (fresh_ctrl "quota").

(** * Properties *)

Lemma ctrl_frame_refl c : ctrl_frame c c.
Proof. by repeat split. Qed.

Lemma field_frame_refl f : field_frame f f.
Proof. repeat split. Qed.

Lemma field_frame_trans f g h : field_frame f g → field_frame g h → field_frame f h.
Proof.
  unfold field_frame, ctrl_frame. intros (? & ? & ? & ? & ? & ? & ? & ? & ?).
  intros (? & ? & ? & ? & ? & ? & ? & ? & ?). repeat split; congruence.
Qed.

Lemma field_frame_setValidity key b f :
  field_frame f (with_ctrl (ctrl_setValidity key b) f).
Proof. repeat split. Qed.

Lemma flag_setValidity key b f :
  flag key (ctrl (with_ctrl (ctrl_setValidity key b) f)) = Some b.
Proof. unfold flag. simpl. apply lookup_insert_eq. Qed.

Lemma flag_setValidity_ne key key' b f :
  key ≠ key' →
  flag key' (ctrl (with_ctrl (ctrl_setValidity key b) f)) = flag key' (ctrl f).
Proof. intros Hne. unfold flag. simpl. by apply lookup_insert_ne. Qed.

Lemma eval_attr_frame key f f' : field_frame f f' → eval_attr key f' = eval_attr key f.
Proof. intros (Hs & Ha & _). unfold eval_attr. by rewrite Hs, Ha. Qed.

Lemma decide_head {A} (h : Hook) (hs : list Hook) (a b : A) :
  (if decide (h ∈ h :: hs) then a else b) = a.
Proof. rewrite decide_True; [done|]. apply elem_of_cons. by left. Qed.

Lemma decide_tail {A} (h h' : Hook) (hs : list Hook) (a b : A) :
  h ≠ h' →
  (if decide (h ∈ h' :: hs) then a else b) = (if decide (h ∈ hs) then a else b).
Proof.
  intros Hne. destruct (decide (h ∈ hs)) as [Hin|Hin].
  - rewrite decide_True; [done|]. apply elem_of_cons. by right.
  - rewrite decide_False; [done|]. rewrite elem_of_cons. by intros [?|?].
Qed.

Section BoundCheckFacts.
Variable StringToNumber : string → float.

(** One evaluation of [maxValidator], as a state update. *)
Lemma maxValidator_run v f :
  maxValidator StringToNumber v f =
    (Normal v,
     with_ctrl (ctrl_setValidity "validateNumberMax"
                  (max_verdict StringToNumber f v)) f).
Proof.
  unfold maxValidator, max_verdict, bind, get, setValidity, modify, ret.
  by destruct (_ && _ && _).
Qed.

Lemma minValidator_run v f :
  minValidator StringToNumber v f =
    (Normal v,
     with_ctrl (ctrl_setValidity "validateNumberMin"
                  (min_verdict StringToNumber f v)) f).
Proof.
  unfold minValidator, min_verdict, bind, get, setValidity, modify, ret.
  by destruct (_ && _ && _).
Qed.

Lemma three_conditions (a b c : bool) :
  (Some (negb (a && negb b && c)) = Some false ↔ a = true ∧ b = false ∧ c = true) ∧
  (Some (negb (a && negb b && c)) = Some true ↔ ¬ (a = true ∧ b = false ∧ c = true)).
Proof. destruct a, b, c; simpl; intuition congruence. Qed.

(** C1.  For every field value [v] and every threshold [m] that the
    expression of [validate-number-max] supplies, one evaluation of the
    validator returns and has written the flag [validateNumberMax]: the flag
    is false exactly when [m] is defined, [v] is not empty and [v > m], and
    it is true in every other case. *)
Theorem maxValidator_flag (f : Field) (v m : jsvalue) :
  eval_attr "validateNumberMax" f = m →
  ∃ f', maxValidator StringToNumber v f = (Normal v, f') ∧
    (flag "validateNumberMax" (ctrl f') = Some false ↔
       isDefined m = true ∧ isEmpty (ctrl f) v = false ∧ js_gt StringToNumber v m = true) ∧
    (flag "validateNumberMax" (ctrl f') = Some true ↔
       ¬ (isDefined m = true ∧ isEmpty (ctrl f) v = false ∧ js_gt StringToNumber v m = true)).
Proof.
  intros <-. eexists. split; [apply maxValidator_run|].
  rewrite flag_setValidity. unfold max_verdict. apply three_conditions.
Qed.

(** C2.  For every field value [v] and every threshold [m] that the
    expression of [validate-number-min] supplies, one evaluation of the
    validator returns and has written the flag [validateNumberMin]: the flag
    is false exactly when [m] is defined, [v] is not empty and [v < m], and
    it is true in every other case. *)
Theorem minValidator_flag (f : Field) (v m : jsvalue) :
  eval_attr "validateNumberMin" f = m →
  ∃ f', minValidator StringToNumber v f = (Normal v, f') ∧
    (flag "validateNumberMin" (ctrl f') = Some false ↔
       isDefined m = true ∧ isEmpty (ctrl f) v = false ∧ js_lt StringToNumber v m = true) ∧
    (flag "validateNumberMin" (ctrl f') = Some true ↔
       ¬ (isDefined m = true ∧ isEmpty (ctrl f) v = false ∧ js_lt StringToNumber v m = true)).
Proof.
  intros <-. eexists. split; [apply minValidator_run|].
  rewrite flag_setValidity. unfold min_verdict. apply three_conditions.
Qed.

(** *** The verdicts do not depend on the flags *)

Lemma max_verdict_ext f g v :
  scope g = scope f → attrs g = attrs f → isEmpty (ctrl g) = isEmpty (ctrl f) →
  max_verdict StringToNumber g v = max_verdict StringToNumber f v.
Proof.
  intros Hs Ha He. unfold max_verdict, eval_attr. by rewrite Hs, Ha, He.
Qed.

Lemma min_verdict_ext f g v :
  scope g = scope f → attrs g = attrs f → isEmpty (ctrl g) = isEmpty (ctrl f) →
  min_verdict StringToNumber g v = min_verdict StringToNumber f v.
Proof.
  intros Hs Ha He. unfold min_verdict, eval_attr. by rewrite Hs, Ha, He.
Qed.

Lemma max_verdict_frame f g v :
  field_frame f g → max_verdict StringToNumber g v = max_verdict StringToNumber f v.
Proof. intros (? & ? & ? & ? & ? & ? & ? & ? & ?). by apply max_verdict_ext. Qed.

Lemma min_verdict_frame f g v :
  field_frame f g → min_verdict StringToNumber g v = min_verdict StringToNumber f v.
Proof. intros (? & ? & ? & ? & ? & ? & ? & ? & ?). by apply min_verdict_ext. Qed.

(** *** A pipeline of bound-check hooks

    Every hook hands on the value it received, the field changes in its
    flags only, and the flag of a rule that is in the pipeline holds the
    verdict of that rule on the value. *)
Lemma run_hooks_bound_check hs v f :
  Forall (λ h, is_bound_check h = true) hs →
  ∃ f', run_hooks StringToNumber hs v f = (Normal v, f') ∧ field_frame f f' ∧
    flag "validateNumberMax" (ctrl f') =
      (if decide (maxValidatorFn ∈ hs)
       then Some (max_verdict StringToNumber f v)
       else flag "validateNumberMax" (ctrl f)) ∧
    flag "validateNumberMin" (ctrl f') =
      (if decide (minValidatorFn ∈ hs)
       then Some (min_verdict StringToNumber f v)
       else flag "validateNumberMin" (ctrl f)) ∧
    (∀ key, key ≠ "validateNumberMax" → key ≠ "validateNumberMin" →
            flag key (ctrl f') = flag key (ctrl f)).
Proof.
  intros Hall. revert f. induction Hall as [|h hs Hh _ IH]; intros f.
  - exists f. repeat split.
  - destruct h; try discriminate Hh; cbn [run_hooks run_hook]; unfold bind.
    + rewrite maxValidator_run.
      set (f1 := with_ctrl _ f).
      assert (Hf1 : field_frame f f1) by apply field_frame_setValidity.
      destruct (IH f1) as (f' & Hrun & Hfr & Hmax & Hmin & Hrest).
      exists f'. split; [done|]. split; [by eapply field_frame_trans|].
      rewrite decide_head, (decide_tail minValidatorFn maxValidatorFn) by done.
      rewrite Hmax, Hmin.
      rewrite (max_verdict_frame _ _ _ Hf1), (min_verdict_frame _ _ _ Hf1).
      split; [|split].
      * destruct (decide (maxValidatorFn ∈ hs)); [done|apply flag_setValidity].
      * destruct (decide (minValidatorFn ∈ hs)); [done|].
        by apply flag_setValidity_ne.
      * intros key Hk1 Hk2. rewrite Hrest by done.
        by apply flag_setValidity_ne.
    + rewrite minValidator_run.
      set (f1 := with_ctrl _ f).
      assert (Hf1 : field_frame f f1) by apply field_frame_setValidity.
      destruct (IH f1) as (f' & Hrun & Hfr & Hmax & Hmin & Hrest).
      exists f'. split; [done|]. split; [by eapply field_frame_trans|].
      rewrite decide_head, (decide_tail maxValidatorFn minValidatorFn) by done.
      rewrite Hmax, Hmin.
      rewrite (max_verdict_frame _ _ _ Hf1), (min_verdict_frame _ _ _ Hf1).
      split; [|split].
      * destruct (decide (maxValidatorFn ∈ hs)); [done|].
        by apply flag_setValidity_ne.
      * destruct (decide (minValidatorFn ∈ hs)); [done|apply flag_setValidity].
      * intros key Hk1 Hk2. rewrite Hrest by done.
        by apply flag_setValidity_ne.
Qed.

(** A change of the view value through a pipeline of bound-check hooks. *)
Lemma fire_view_bound_check v f :
  Forall (λ h, is_bound_check h = true) (parsers (ctrl f)) →
  ∃ f', fire StringToNumber (ViewChange v) f = (Normal tt, f') ∧
    scope f' = scope f ∧ attrs f' = attrs f ∧ observers f' = observers f ∧
    parsers (ctrl f') = parsers (ctrl f) ∧ formatters (ctrl f') = formatters (ctrl f) ∧
    isEmpty (ctrl f') = isEmpty (ctrl f) ∧
    viewValue (ctrl f') = v ∧ modelValue (ctrl f') = v ∧
    (maxValidatorFn ∈ parsers (ctrl f) →
     flag "validateNumberMax" (ctrl f') = Some (max_verdict StringToNumber f v)) ∧
    (minValidatorFn ∈ parsers (ctrl f) →
     flag "validateNumberMin" (ctrl f') = Some (min_verdict StringToNumber f v)).
Proof.
  intros Hall. unfold fire, bind, modify, get, ret.
  set (fv := with_ctrl (with_viewValue v) f).
  destruct (run_hooks_bound_check (parsers (ctrl fv)) v fv Hall)
    as (f' & Hrun & Hfr & Hmax & Hmin & _).
  rewrite Hrun. eexists. split; [done|].
  destruct Hfr as (? & ? & ? & ? & ? & ? & ? & ? & ?).
  simpl. repeat split; try done.
  - intros Hin. change (flag "validateNumberMax" (ctrl f') = Some (max_verdict StringToNumber f v)).
    rewrite Hmax. simpl. by rewrite decide_True.
  - intros Hin. change (flag "validateNumberMin" (ctrl f') = Some (min_verdict StringToNumber f v)).
    rewrite Hmin. simpl. by rewrite decide_True.
Qed.

(** A change of the model value through a pipeline of bound-check hooks. *)
Lemma fire_model_bound_check v f :
  Forall (λ h, is_bound_check h = true) (formatters (ctrl f)) →
  ∃ f', fire StringToNumber (ModelChange v) f = (Normal tt, f') ∧
    scope f' = scope f ∧ attrs f' = attrs f ∧ observers f' = observers f ∧
    parsers (ctrl f') = parsers (ctrl f) ∧ formatters (ctrl f') = formatters (ctrl f) ∧
    isEmpty (ctrl f') = isEmpty (ctrl f) ∧
    viewValue (ctrl f') = v ∧ modelValue (ctrl f') = v ∧
    (maxValidatorFn ∈ formatters (ctrl f) →
     flag "validateNumberMax" (ctrl f') = Some (max_verdict StringToNumber f v)) ∧
    (minValidatorFn ∈ formatters (ctrl f) →
     flag "validateNumberMin" (ctrl f') = Some (min_verdict StringToNumber f v)).
Proof.
  intros Hall. unfold fire, bind, modify, get, ret.
  set (fm := with_ctrl (with_modelValue v) f).
  assert (Hrev : Forall (λ h, is_bound_check h = true) (reverse (formatters (ctrl fm)))).
  { by apply Forall_reverse. }
  destruct (run_hooks_bound_check _ v fm Hrev) as (f' & Hrun & Hfr & Hmax & Hmin & _).
  rewrite Hrun. eexists. split; [done|].
  destruct Hfr as (? & ? & ? & ? & ? & ? & ? & ? & ?).
  simpl. repeat split; try done.
  - intros Hin. change (flag "validateNumberMax" (ctrl f') = Some (max_verdict StringToNumber f v)).
    rewrite Hmax. simpl. rewrite decide_True; [done|]. by apply elem_of_reverse.
  - intros Hin. change (flag "validateNumberMin" (ctrl f') = Some (min_verdict StringToNumber f v)).
    rewrite Hmin. simpl. rewrite decide_True; [done|]. by apply elem_of_reverse.
Qed.

(** C7.  The bound-check rules are the identity of the value pipeline: for
    every input value, passing or failing, [maxValidator] and
    [minValidator] return the value they were given and leave everything
    but the validity flags as it was; through a pipeline made of them, a
    changed view value arrives unchanged as the model value, and a changed
    model value arrives unchanged as the view value. *)
Theorem bound_check_identity (f : Field) (v : jsvalue) :
  (∃ f', maxValidator StringToNumber v f = (Normal v, f') ∧ field_frame f f') ∧
  (∃ f', minValidator StringToNumber v f = (Normal v, f') ∧ field_frame f f') ∧
  (Forall (λ h, is_bound_check h = true) (parsers (ctrl f)) →
   ∃ f', fire StringToNumber (ViewChange v) f = (Normal tt, f') ∧
     viewValue (ctrl f') = v ∧ modelValue (ctrl f') = v) ∧
  (Forall (λ h, is_bound_check h = true) (formatters (ctrl f)) →
   ∃ f', fire StringToNumber (ModelChange v) f = (Normal tt, f') ∧
     viewValue (ctrl f') = v ∧ modelValue (ctrl f') = v).
Proof.
  split; [|split; [|split]].
  - eexists. split; [apply maxValidator_run|apply field_frame_setValidity].
  - eexists. split; [apply minValidator_run|apply field_frame_setValidity].
  - intros Hall. destruct (fire_view_bound_check v f Hall)
      as (f' & Hrun & _ & _ & _ & _ & _ & _ & Hv & Hm & _). by exists f'.
  - intros Hall. destruct (fire_model_bound_check v f Hall)
      as (f' & Hrun & _ & _ & _ & _ & _ & _ & Hv & Hm & _). by exists f'.
Qed.

(** C8.  When the threshold expression evaluates to [undefined], or when
    the field value is empty, an evaluation of a bound-check rule sets its
    flag to true, whatever a comparison of the value with the threshold
    would give. *)
Theorem bound_check_no_constraint (f : Field) (v : jsvalue) :
  (eval_attr "validateNumberMax" f = Undefined ∨ isEmpty (ctrl f) v = true →
   maxValidator StringToNumber v f =
     (Normal v, with_ctrl (ctrl_setValidity "validateNumberMax" true) f)) ∧
  (eval_attr "validateNumberMin" f = Undefined ∨ isEmpty (ctrl f) v = true →
   minValidator StringToNumber v f =
     (Normal v, with_ctrl (ctrl_setValidity "validateNumberMin" true) f)).
Proof.
  split; intros H.
  - rewrite maxValidator_run. unfold max_verdict.
    destruct H as [-> | ->]; simpl; [done|]. by rewrite andb_false_r.
  - rewrite minValidator_run. unfold min_verdict.
    destruct H as [-> | ->]; simpl; [done|]. by rewrite andb_false_r.
Qed.

(** C10.  A threshold that evaluates to [null] is a constraint: [null] is
    defined, so the comparison is made, with [null] converted to [0].  The
    value [1] is positive and not empty, and the max rule with the
    threshold [null] sets the flag [validateNumberMax] to false on it,
    where with the threshold [undefined] it sets the flag to true. *)
Theorem null_threshold_is_compared (f : Field) :
  isEmpty (ctrl f) (Num 1%float) = false →
  isDefined Null = true ∧
  ToNumber StringToNumber Null = 0%float ∧
  PrimFloat.ltb 0%float 1%float = true ∧
  js_gt StringToNumber (Num 1%float) Null = true ∧
  ngIsEmpty (Num 1%float) = false ∧
  (eval_attr "validateNumberMax" f = Null →
   flag "validateNumberMax" (ctrl (maxValidator StringToNumber (Num 1%float) f).2)
     = Some false) ∧
  (eval_attr "validateNumberMax" f = Undefined →
   flag "validateNumberMax" (ctrl (maxValidator StringToNumber (Num 1%float) f).2)
     = Some true).
Proof.
  intros He. repeat split.
  - intros Hm. rewrite maxValidator_run. cbn [snd]. rewrite flag_setValidity.
    unfold max_verdict. by rewrite Hm, He.
  - intros Hm. rewrite maxValidator_run. cbn [snd]. rewrite flag_setValidity.
    unfold max_verdict. by rewrite Hm.
Qed.

(** *** Observers *)







(** C3, as amended.  For every view value that is a string, as an input
    element hands it to the first parser: if its length is zero, the parser
    of [notBlank]
    sets the flag [notBlank] to false and returns [undefined], and the model
    value of the field becomes [undefined]; otherwise it sets the flag to
    true and returns the string, and the model value becomes that string. *)
Theorem notBlank_rule (s : string) (f0 : Field) :
  (String.length s = 0 →
   notBlank (Str s) f0 =
     (Normal Undefined, with_ctrl (ctrl_setValidity "notBlank" false) f0)) ∧
  (String.length s ≠ 0 →
   notBlank (Str s) f0 =
     (Normal (Str s), with_ctrl (ctrl_setValidity "notBlank" true) f0)) ∧
  (Forall (λ h, is_bound_check h = true) (parsers (ctrl f0)) →
   ∃ f1, notBlank_link f0 = (Normal tt, f1) ∧
     ∀ f, same_wiring f1 f →
       ∃ f', fire StringToNumber (ViewChange (Str s)) f = (Normal tt, f') ∧
         (String.length s = 0 →
          flag "notBlank" (ctrl f') = Some false ∧ modelValue (ctrl f') = Undefined) ∧
         (String.length s ≠ 0 →
          flag "notBlank" (ctrl f') = Some true ∧ modelValue (ctrl f') = Str s)).
Proof.
  assert (Hrun : ∀ f, notBlank (Str s) f =
            (Normal (if Nat.eqb (String.length s) 0 then Undefined else Str s),
             with_ctrl (ctrl_setValidity "notBlank"
                          (negb (Nat.eqb (String.length s) 0))) f)).
  { intros f. unfold notBlank, bind, lift, length_truthy, length_of.
    by destruct (Nat.eqb (String.length s) 0). }
  split; [|split].
  - intros Hz. by rewrite Hrun, Hz.
  - intros Hnz. rewrite Hrun. apply Nat.eqb_neq in Hnz. by rewrite Hnz.
  - intros Hall. eexists. split; [reflexivity|]. cbn [snd].
    intros f (Hfp & _ & _). cbn in Hfp.
    unfold fire, bind, modify, get.
    set (fv := with_ctrl _ f).
    change (parsers (ctrl fv)) with (parsers (ctrl f)). rewrite Hfp.
    cbn [run_hooks run_hook]. unfold bind. rewrite Hrun.
    set (w := if Nat.eqb (String.length s) 0 then Undefined else Str s).
    set (f2 := with_ctrl _ fv).
    destruct (run_hooks_bound_check _ w f2 Hall) as (f' & -> & _ & _ & _ & Hrest).
    eexists. split; [done|].
    assert (Hflag : flag "notBlank" (ctrl f') =
                    Some (negb (Nat.eqb (String.length s) 0))).
    { rewrite Hrest by done. apply flag_setValidity. }
    split.
    + intros Hz. split.
      * change (flag "notBlank" (ctrl f') = Some false). by rewrite Hflag, Hz.
      * subst w. cbn. by rewrite Hz.
    + intros Hnz. apply Nat.eqb_neq in Hnz. split.
      * change (flag "notBlank" (ctrl f') = Some true). by rewrite Hflag, Hnz.
      * subst w. cbn. by rewrite Hnz.
Qed.

End BoundCheckFacts.

Lemma maxValidator_flag_witness :
  eval_attr "validateNumberMax" quota_field = Num 10%float ∧
  ∃ f', maxValidator digitsToNumber (Str "11") quota_field = (Normal (Str "11"), f') ∧
    (flag "validateNumberMax" (ctrl f') = Some false ↔
       isDefined (Num 10%float) = true ∧
       isEmpty (ctrl quota_field) (Str "11") = false ∧
       js_gt digitsToNumber (Str "11") (Num 10%float) = true) ∧
    (flag "validateNumberMax" (ctrl f') = Some true ↔
       ¬ (isDefined (Num 10%float) = true ∧
          isEmpty (ctrl quota_field) (Str "11") = false ∧
          js_gt digitsToNumber (Str "11") (Num 10%float) = true)).
Proof.
  split; [reflexivity|].
  apply (maxValidator_flag digitsToNumber quota_field (Str "11") (Num 10%float)).
  reflexivity.
Defined.

Lemma minValidator_flag_witness :
  eval_attr "validateNumberMin" quota_field = Num 10%float ∧
  ∃ f', minValidator digitsToNumber (Num 9%float) quota_field = (Normal (Num 9%float), f') ∧
    (flag "validateNumberMin" (ctrl f') = Some false ↔
       isDefined (Num 10%float) = true ∧
       isEmpty (ctrl quota_field) (Num 9%float) = false ∧
       js_lt digitsToNumber (Num 9%float) (Num 10%float) = true) ∧
    (flag "validateNumberMin" (ctrl f') = Some true ↔
       ¬ (isDefined (Num 10%float) = true ∧
          isEmpty (ctrl quota_field) (Num 9%float) = false ∧
          js_lt digitsToNumber (Num 9%float) (Num 10%float) = true)).
Proof.
  split; [reflexivity|].
  apply (minValidator_flag digitsToNumber quota_field (Num 9%float) (Num 10%float)).
  reflexivity.
Defined.

(** ** The match rule *)

Lemma page_frame_refl pg : page_frame pg pg.
Proof. split; [done|]. intros r. split; [apply ctrl_frame_refl|done]. Qed.

Lemma page_frame_trans pg1 pg2 pg3 :
  page_frame pg1 pg2 → page_frame pg2 pg3 → page_frame pg1 pg3.
Proof.
  intros [Hl1 H1] [Hl2 H2]. split; [congruence|]. intros r.
  destruct (H1 r) as [(? & ? & ? & ? & ? & ?) Hk1].
  destruct (H2 r) as [(? & ? & ? & ? & ? & ?) Hk2].
  split; [repeat split; congruence|].
  intros key Hkey. by rewrite Hk2, Hk1.
Qed.

(** One evaluation of [passwordCheck] with the reference controller bound,
    as an update of the store. *)
Lemma passwordCheck_run c p pg :
  passwordCheck c (Some p) pg =
    (Normal tt,
     with_controllers (λ cs,
       <[c := ctrl_setValidity "match"
                (strict_equals (modelValue (cs c)) (modelValue (cs p))) (cs c)]> cs) pg).
Proof. reflexivity. Qed.

Lemma passwordCheck_unbound c pg : passwordCheck c None pg = (Normal tt, pg).
Proof. reflexivity. Qed.

(** Whatever a handler does, it writes at most the flag [match] of its own
    controller. *)
Lemma run_handler_frame h pg :
  page_frame pg (run_handler h pg).2 ∧
  ∀ r, r ≠ handler_ctrl h → controllers (run_handler h pg).2 r = controllers pg r.
Proof.
  destruct h as [c [p|]]; cbn [run_handler handler_ctrl].
  - rewrite passwordCheck_run. cbn [snd]. split.
    + split; [done|]. intros r. cbn [controllers with_controllers].
      destruct (decide (c = r)) as [-> | Hne].
      * rewrite fn_lookup_insert. split; [by repeat split|].
        intros key Hkey. unfold flag. cbn. by apply lookup_insert_ne.
      * rewrite fn_lookup_insert_ne by done. split; [apply ctrl_frame_refl|done].
    + intros r Hr. cbn [controllers with_controllers].
      by rewrite fn_lookup_insert_ne.
  - rewrite passwordCheck_unbound. split; [apply page_frame_refl|done].
Qed.

Lemma run_handlers_frame (W : nat → Prop) ty hs pg :
  (∀ t h, (t, h) ∈ hs → W (handler_ctrl h)) →
  page_frame pg (run_handlers ty hs pg).2 ∧
  ∀ r, ¬ W r → controllers (run_handlers ty hs pg).2 r = controllers pg r.
Proof.
  revert pg. induction hs as [|[t h] hs IH]; intros pg HW.
  - split; [apply page_frame_refl|done].
  - assert (HW' : ∀ t' h', (t', h') ∈ hs → W (handler_ctrl h')).
    { intros t' h' Hin. apply (HW t'). apply elem_of_cons. by right. }
    assert (Hh : W (handler_ctrl h)).
    { apply (HW t). apply elem_of_cons. by left. }
    cbn [run_handlers]. unfold bind.
    destruct (String.eqb t ty).
    + destruct (run_handler_frame h pg) as [Hfr Hother].
      destruct (run_handler h pg) as [[[]|e] pg1]; cbn [snd] in *.
      * destruct (IH pg1 HW') as [Hfr' Hother']. split.
        -- by eapply page_frame_trans.
        -- intros r Hr. rewrite Hother' by done. apply Hother.
           intros ->. by apply Hr.
      * split; [done|]. intros r Hr. apply Hother. intros ->. by apply Hr.
    + unfold ret. by apply IH.
Qed.




(** What [on] leaves in the listeners of an element. *)
Lemma on_listeners els types h pg el :
  ∃ mid, listeners (on els types h pg).2 el = listeners pg el ++ mid ∧
    controllers (on els types h pg).2 = controllers pg ∧
    Forall (λ e, e.2 = h) mid ∧
    (el ∈ els → ∀ ty, ty ∈ String.words types → (ty, h) ∈ mid).
Proof.
  unfold on, modify. cbn [snd listeners controllers with_listeners].
  generalize (listeners pg). intros ls.
  revert ls. induction els as [|e els IH]; intros ls.
  - exists []. rewrite app_nil_r. repeat split; [constructor|].
    intros Hin. by apply elem_of_nil in Hin.
  - cbn [foldl]. destruct (IH (<[e := bind_types (String.words types) h (ls e)]> ls))
      as (mid & Hl & _ & Hall & Hin).
    destruct (decide (e = el)) as [-> | Hne].
    + rewrite fn_lookup_insert in Hl. unfold bind_types in Hl.
      rewrite <- app_assoc in Hl. eexists. split; [exact Hl|].
      split; [done|]. split.
      * apply Forall_app. split; [|done].
        apply Forall_fmap. by apply Forall_true.
      * intros _ ty Hty. apply elem_of_app. left.
        apply list_elem_of_fmap. by exists ty.
    + rewrite fn_lookup_insert_ne in Hl by done.
      exists mid. split; [done|]. split; [done|]. split; [done|].
      intros Hel. apply Hin. apply elem_of_cons in Hel as [?|?]; [congruence|done].
Qed.

Lemma words_keyup_change : String.words "keyup change" = ["keyup"; "change"].
Proof. reflexivity. Qed.

Lemma dispatch_run el ty pg : dispatch el ty pg = run_handlers ty (listeners pg el) pg.
Proof. reflexivity. Qed.

(** Over any sequence of events, the flags other than [match] stay as they
    are, and so do all the flags of a controller to which no handler of the
    page writes. *)
Lemma run_page_frame (W : nat → Prop) evs pg :
  (∀ el t h, (t, h) ∈ listeners pg el → W (handler_ctrl h)) →
  listeners (run_page evs pg) = listeners pg ∧
  (∀ r key, key ≠ "match" →
            flag key (controllers (run_page evs pg) r) = flag key (controllers pg r)) ∧
  (∀ r, ¬ W r → validity (controllers (run_page evs pg) r) = validity (controllers pg r)).
Proof.
  revert pg. induction evs as [|ev evs IH]; intros pg HW; [done|].
  change (run_page (ev :: evs) pg) with (run_page evs (page_step pg ev)).
  assert (Hstep : listeners (page_step pg ev) = listeners pg ∧
    (∀ r key, key ≠ "match" →
       flag key (controllers (page_step pg ev) r) = flag key (controllers pg r)) ∧
    (∀ r, ¬ W r →
       validity (controllers (page_step pg ev) r) = validity (controllers pg r))).
  { destruct ev as [el ty|r0 v]; cbn [page_step].
    - rewrite dispatch_run.
      destruct (run_handlers_frame W ty (listeners pg el) pg) as [[Hl Hfr] Hother].
      { intros t h. apply HW. }
      split; [done|]. split.
      + intros r key Hkey. by apply Hfr.
      + intros r Hr. by rewrite Hother.
    - split; [done|]. cbn [controllers with_controllers].
      split; [intros r key _|intros r _].
      + destruct (decide (r0 = r)) as [-> | Hne].
        * by rewrite fn_lookup_insert.
        * by rewrite fn_lookup_insert_ne.
      + destruct (decide (r0 = r)) as [-> | Hne].
        * by rewrite fn_lookup_insert.
        * by rewrite fn_lookup_insert_ne. }
  destruct Hstep as (Hl & Hk & Hv).
  destruct (IH (page_step pg ev)) as (Hl' & Hk' & Hv').
  { intros el t h. rewrite Hl. apply HW. }
  split; [congruence|]. split.
  - intros r key Hkey. by rewrite Hk', Hk.
  - intros r Hr. by rewrite Hv', Hv.
Qed.

Section MatchFacts.
Variable jQuery : string → list nat.

(** What the link function leaves on the page: the controllers as they
    were, and on each element its earlier handlers followed by bindings of
    the new [passwordCheck], which are there for both event types on the
    element of the directive and on the elements that the selector found. *)
Lemma hzPasswordMatch_listeners pg0 element c p :
  ∃ pg1, hzPasswordMatch jQuery element c (Some p) pg0 = (Normal tt, pg1) ∧
    controllers pg1 = controllers pg0 ∧
    ∀ el, ∃ mid, listeners pg1 el = listeners pg0 el ++ mid ∧
      Forall (λ e, e.2 = passwordCheckFn c (Some p)) mid ∧
      (el = element ∨ el ∈ jQuery (id_selector (name (controllers pg0 p))) →
       ∀ ty, ty = "keyup" ∨ ty = "change" → (ty, passwordCheckFn c (Some p)) ∈ mid).
Proof.
  set (h := passwordCheckFn c (Some p)).
  set (els := jQuery (id_selector (name (controllers pg0 p)))).
  set (pgA := (on els "keyup change" h pg0).2).
  exists (on [element] "keyup change" h pgA).2.
  split; [reflexivity|]. split.
  - reflexivity.
  - intros el.
    destruct (on_listeners els "keyup change" h pg0 el) as (m1 & Hl1 & _ & Hall1 & Hin1).
    destruct (on_listeners [element] "keyup change" h pgA el)
      as (m2 & Hl2 & _ & Hall2 & Hin2).
    exists (m1 ++ m2). split.
    { rewrite Hl2. unfold pgA. by rewrite Hl1, app_assoc. }
    split; [by apply Forall_app|].
    rewrite words_keyup_change in Hin1, Hin2.
    intros Hel ty Hty. apply elem_of_app.
    assert (Hty' : ty ∈ ["keyup"; "change"]).
    { destruct Hty as [-> | ->]; repeat constructor. }
    destruct Hel as [-> | Hel].
    + right. apply Hin2; [by apply list_elem_of_singleton|done].
    + left. by apply Hin1.
Qed.


(** C5.  The match rule goes one way.  After the link function has run,
    over every sequence of events and of changes of the model values, and
    whatever the values of the fields, the handlers write no flag but
    [match]; a controller other than the dependent one, to which no earlier
    handler of the page writes, keeps every validity flag; and so does the
    reference controller, when it is not the dependent one itself. *)
Theorem match_one_directional (pg0 : Page) (element ctrl pw : nat) :
  ∃ pg1, hzPasswordMatch jQuery element ctrl (Some pw) pg0 = (Normal tt, pg1) ∧
    ∀ (cs : nat → NgModelController) (evs : list PageEvent),
      let pg' := run_page evs (mkPage cs (listeners pg1)) in
      (∀ r key, key ≠ "match" → flag key (controllers pg' r) = flag key (cs r)) ∧
      (∀ r, r ≠ ctrl →
            (∀ el t h, (t, h) ∈ listeners pg0 el → handler_ctrl h ≠ r) →
            validity (controllers pg' r) = validity (cs r)) ∧
      (pw ≠ ctrl →
       (∀ el t h, (t, h) ∈ listeners pg0 el → handler_ctrl h ≠ pw) →
       validity (controllers pg' pw) = validity (cs pw)).
Proof.
  destruct (hzPasswordMatch_listeners pg0 element ctrl pw) as (pg1 & Hlink & _ & Hls).
  exists pg1. split; [done|]. intros cs evs pg'.
  assert (Hothers : ∀ r, r ≠ ctrl →
            (∀ el t h, (t, h) ∈ listeners pg0 el → handler_ctrl h ≠ r) →
            validity (controllers pg' r) = validity (cs r)).
  { intros r Hr Hprior.
    destruct (run_page_frame (λ x, x ≠ r) evs (mkPage cs (listeners pg1)))
      as (_ & _ & Hother).
    - intros el t h. cbn [listeners]. destruct (Hls el) as (mid & -> & Hown & _).
      rewrite elem_of_app. intros [Hin|Hin]; [by eapply Hprior|].
      rewrite Forall_forall in Hown. apply list_elem_of_In in Hin.
      apply Hown in Hin. cbn in Hin. subst h.
      cbn. congruence.
    - apply Hother. by intros H. }
  split; [|split].
  - destruct (run_page_frame (λ _, True) evs (mkPage cs (listeners pg1)))
      as (_ & Hk & _); [done|]. exact Hk.
  - exact Hothers.
  - intros Hne Hprior. exact (Hothers pw Hne Hprior).
Qed.

End MatchFacts.

Section Completion.
Variable StringToNumber : string → float.

(** C9, as amended.  For every input value and every threshold that the
    threshold expression supplies, the bound-check rules complete normally,
    with the flag at their verdict; so does the match rule whose reference
    controller is bound.  The non-empty rule completes normally on every
    view value other than [undefined] and [null]; on these two, in every
    field, reading the length throws a [TypeError] and no flag is written.
    A rule that has completed has changed validity flags and nothing
    else. *)
Theorem rules_complete (v w mmax mmin : jsvalue) (f : Field) (pg : Page)
    (c p : nat) :
  eval_attr "validateNumberMax" f = mmax →
  eval_attr "validateNumberMin" f = mmin →
  w ≠ Undefined → w ≠ Null →
  (∃ f', maxValidator StringToNumber v f = (Normal v, f') ∧ field_frame f f' ∧
     flag "validateNumberMax" (ctrl f') =
       Some (negb (isDefined mmax && negb (isEmpty (ctrl f) v)
                   && js_gt StringToNumber v mmax))) ∧
  (∃ f', minValidator StringToNumber v f = (Normal v, f') ∧ field_frame f f' ∧
     flag "validateNumberMin" (ctrl f') =
       Some (negb (isDefined mmin && negb (isEmpty (ctrl f) v)
                   && js_lt StringToNumber v mmin))) ∧
  (∃ r f', notBlank w f = (Normal r, f') ∧ field_frame f f') ∧
  notBlank Undefined f = (Throw TypeError, f) ∧
  notBlank Null f = (Throw TypeError, f) ∧
  (∃ pg', passwordCheck c (Some p) pg = (Normal tt, pg') ∧ page_frame pg pg').
Proof.
  intros <- <- Hu Hn. split; [|split; [|split; [|split; [|split]]]].
  - eexists. split; [apply maxValidator_run|].
    split; [apply field_frame_setValidity|apply flag_setValidity].
  - eexists. split; [apply minValidator_run|].
    split; [apply field_frame_setValidity|apply flag_setValidity].
  - unfold notBlank, bind, lift.
    destruct w as [| |b|n|s]; try done; cbn [length_truthy length_of];
      try destruct (negb _); do 2 eexists;
      (split; [reflexivity|apply field_frame_setValidity]).
  - reflexivity.
  - reflexivity.
  - eexists. split; [apply passwordCheck_run|].
    apply (run_handler_frame (passwordCheckFn c (Some p)) pg).
Qed.

End Completion.

(** ** The theorems at concrete inputs *)

Lemma notBlank_rule_witness :
  (String.length "" = 0 ∧
   notBlank (Str "") plain_field =
     (Normal Undefined, with_ctrl (ctrl_setValidity "notBlank" false) plain_field)) ∧
  (String.length "x" ≠ 0 ∧
   notBlank (Str "x") plain_field =
     (Normal (Str "x"), with_ctrl (ctrl_setValidity "notBlank" true) plain_field)) ∧
  (Forall (λ h, is_bound_check h = true) (parsers (ctrl quota_linked)) ∧
   ∃ f1, notBlank_link quota_linked = (Normal tt, f1) ∧
     ∃ f', fire digitsToNumber (ViewChange (Str "")) f1 = (Normal tt, f') ∧
       flag "notBlank" (ctrl f') = Some false ∧ modelValue (ctrl f') = Undefined).
Proof.
  split; [|split].
  - split; [reflexivity|].
    apply (proj1 (notBlank_rule digitsToNumber "" plain_field)). reflexivity.
  - split; [discriminate|].
    apply (proj1 (proj2 (notBlank_rule digitsToNumber "x" plain_field))). discriminate.
  - assert (H : Forall (λ h, is_bound_check h = true) (parsers (ctrl quota_linked)))
      by (repeat constructor).
    split; [exact H|].
    destruct (proj2 (proj2 (notBlank_rule digitsToNumber "" quota_linked)) H)
      as (f1 & Hlink & Hfire).
    exists f1. split; [exact Hlink|].
    destruct (Hfire f1) as (f' & Hrun & Hempty & _); [by repeat split|].
    exists f'. split; [exact Hrun|]. apply Hempty. reflexivity.
Defined.


Lemma bound_check_identity_witness :
  Forall (λ h, is_bound_check h = true) (parsers (ctrl quota_linked)) ∧
  Forall (λ h, is_bound_check h = true) (formatters (ctrl quota_linked)) ∧
  (∃ f', fire digitsToNumber (ViewChange (Str "11")) quota_linked = (Normal tt, f') ∧
     viewValue (ctrl f') = Str "11" ∧ modelValue (ctrl f') = Str "11") ∧
  (∃ f', fire digitsToNumber (ModelChange (Num 11%float)) quota_linked = (Normal tt, f') ∧
     viewValue (ctrl f') = Num 11%float ∧ modelValue (ctrl f') = Num 11%float).
Proof.
  assert (Hp : Forall (λ h, is_bound_check h = true) (parsers (ctrl quota_linked)))
    by (repeat constructor).
  assert (Hf : Forall (λ h, is_bound_check h = true) (formatters (ctrl quota_linked)))
    by (repeat constructor).
  split; [exact Hp|]. split; [exact Hf|]. split.
  - exact (proj1 (proj2 (proj2
             (bound_check_identity digitsToNumber quota_linked (Str "11")))) Hp).
  - exact (proj2 (proj2 (proj2
             (bound_check_identity digitsToNumber quota_linked (Num 11%float)))) Hf).
Defined.

Lemma bound_check_no_constraint_witness :
  (eval_attr "validateNumberMax" plain_field = Undefined ∧
   maxValidator digitsToNumber (Num 11%float) plain_field =
     (Normal (Num 11%float),
      with_ctrl (ctrl_setValidity "validateNumberMax" true) plain_field)) ∧
  (isEmpty (ctrl quota_field) (Str "") = true ∧
   minValidator digitsToNumber (Str "") quota_field =
     (Normal (Str ""),
      with_ctrl (ctrl_setValidity "validateNumberMin" true) quota_field)).
Proof.
  split; (split; [reflexivity|]).
  - apply (proj1 (bound_check_no_constraint digitsToNumber plain_field (Num 11%float))).
    left. reflexivity.
  - apply (proj2 (bound_check_no_constraint digitsToNumber quota_field (Str ""))).
    right. reflexivity.
Defined.

Lemma null_threshold_is_compared_witness :
  isEmpty (ctrl null_field) (Num 1%float) = false ∧
  eval_attr "validateNumberMax" null_field = Null ∧
  flag "validateNumberMax"
    (ctrl (maxValidator digitsToNumber (Num 1%float) null_field).2) = Some false.
Proof.
  split; [reflexivity|]. split; [reflexivity|].
  destruct (null_threshold_is_compared digitsToNumber null_field eq_refl)
    as (_ & _ & _ & _ & _ & H & _).
  apply H. reflexivity.
Defined.


Lemma match_one_directional_witness :
  0 ≠ 1 ∧
  (∀ el t h, (t, h) ∈ listeners form_page el → handler_ctrl h ≠ 0) ∧
  ∃ pg1, hzPasswordMatch form_jQuery 1 1 (Some 0) form_page = (Normal tt, pg1) ∧
    ∀ evs,
      validity (controllers
                  (run_page evs (mkPage (controllers form_page) (listeners pg1))) 0)
        = validity (controllers form_page 0).
Proof.
  assert (Hprior : ∀ el t h, (t, h) ∈ listeners form_page el → handler_ctrl h ≠ 0).
  { intros el t h Hin. by apply elem_of_nil in Hin. }
  split; [discriminate|]. split; [exact Hprior|].
  destruct (match_one_directional form_jQuery form_page 1 1 0) as (pg1 & Hlink & H).
  exists pg1. split; [exact Hlink|]. intros evs.
  destruct (H (controllers form_page) evs) as (_ & _ & Href).
  apply Href; [discriminate|exact Hprior].
Defined.

Lemma rules_complete_witness :
  eval_attr "validateNumberMax" quota_field = Num 10%float ∧
  eval_attr "validateNumberMin" quota_field = Num 10%float ∧
  Str "x" ≠ Undefined ∧ Str "x" ≠ Null ∧
  (∃ f', maxValidator digitsToNumber Undefined quota_field = (Normal Undefined, f') ∧
     field_frame quota_field f' ∧
     flag "validateNumberMax" (ctrl f') = Some true) ∧
  (∃ f', minValidator digitsToNumber Null quota_field = (Normal Null, f') ∧
     field_frame quota_field f' ∧
     flag "validateNumberMin" (ctrl f') = Some true) ∧
  (∃ r f', notBlank (Str "x") quota_field = (Normal r, f') ∧
     field_frame quota_field f') ∧
  notBlank Undefined quota_field = (Throw TypeError, quota_field) ∧
  notBlank Null quota_field = (Throw TypeError, quota_field) ∧
  (∃ pg', passwordCheck 1 (Some 0) form_page = (Normal tt, pg') ∧
     page_frame form_page pg').
Proof.
  split; [reflexivity|]. split; [reflexivity|].
  split; [discriminate|]. split; [discriminate|].
  destruct (rules_complete digitsToNumber Undefined (Str "x") (Num 10%float)
              (Num 10%float) quota_field form_page 1 0)
    as (Hmax & _ & Hnb & Hu & Hn & Hpw); try reflexivity; try discriminate.
  destruct (rules_complete digitsToNumber Null (Str "x") (Num 10%float)
              (Num 10%float) quota_field form_page 1 0)
    as (_ & Hmin & _); try reflexivity; try discriminate.
  split; [exact Hmax|]. split; [exact Hmin|]. split; [exact Hnb|].
  split; [exact Hu|]. split; [exact Hn|]. exact Hpw.
Defined.

(** C3, as it was stated, fails on a view value that has no length: the
    number 5 does not have length zero, and the parser sets the flag to
    false and returns [undefined] instead of the value. *)
Lemma notBlank_withholds_number :
  length_of (Num 5%float) = Normal None ∧
  notBlank (Num 5%float) plain_field =
    (Normal Undefined, with_ctrl (ctrl_setValidity "notBlank" false) plain_field) ∧
  flag "notBlank" (ctrl (notBlank (Num 5%float) plain_field).2) = Some false ∧
  Undefined ≠ Num 5%float.
Proof. repeat split; done. Qed.

(** C9, as it was stated, fails: on the view values [undefined] and [null]
    the parser of [notBlank] throws a [TypeError] and writes no flag. *)
Lemma notBlank_throws :
  notBlank Undefined plain_field = (Throw TypeError, plain_field) ∧
  notBlank Null plain_field = (Throw TypeError, plain_field) ∧
  ¬ (∃ r f', notBlank Undefined plain_field = (Normal r, f')).
Proof.
  split; [reflexivity|]. split; [reflexivity|].
  intros (r & f' & H). discriminate H.
Qed.

(** * Further properties of the rules *)

(** ** The order of numbers

    [SFcompare] orders the specification floats by sign, exponent and
    mantissa; the primitive comparisons are specified by it. *)

Ltac fold_compares :=
  repeat match goal with
  | |- context [PosDef.Pos.compare_cont Eq ?a ?b] =>
      change (PosDef.Pos.compare_cont Eq a b) with (Pos.compare a b)
  | |- context [IntDef.Z.compare ?a ?b] =>
      change (IntDef.Z.compare a b) with (Z.compare a b)
  end.

Lemma SFcompare_antisym a b :
  SpecFloat.SFcompare b a =
    match SpecFloat.SFcompare a b with
    | Some c => Some (CompOpp c)
    | None => None
    end.
Proof.
  destruct a as [[]|[]| |[] m1 e1], b as [[]|[]| |[] m2 e2]; try reflexivity;
    cbn; fold_compares;
    rewrite (Z.compare_antisym e2 e1), (Pos.compare_antisym m2 m1);
    destruct (e2 ?= e1)%Z; cbn; try reflexivity;
    destruct (m2 ?= m1)%positive; reflexivity.
Qed.

Lemma SFcompare_refl a : a ≠ SpecFloat.S754_nan → SpecFloat.SFcompare a a = Some Eq.
Proof.
  destruct a as [[]|[]| |[] m e]; try done; intros _; cbn; fold_compares;
    by rewrite Z.compare_refl, Pos.compare_refl.
Qed.

Lemma SFltb_trans a b c :
  SpecFloat.SFltb a b = true → SpecFloat.SFltb b c = true → SpecFloat.SFltb a c = true.
Proof.
  unfold SpecFloat.SFltb.
  destruct a as [[]|[]| |[] m1 e1], b as [[]|[]| |[] m2 e2], c as [[]|[]| |[] m3 e3];
    cbn; try done; fold_compares;
    destruct (Z.compare_spec e1 e2), (Z.compare_spec e2 e3), (Z.compare_spec e1 e3);
      cbn; try done; try lia;
    destruct (Pos.compare_spec m1 m2), (Pos.compare_spec m2 m3), (Pos.compare_spec m1 m3);
      cbn; try done; try lia.
Qed.

Lemma ltb_trans x y z :
  PrimFloat.ltb x y = true → PrimFloat.ltb y z = true → PrimFloat.ltb x z = true.
Proof. rewrite !FloatAxioms.ltb_spec. apply SFltb_trans. Qed.

Lemma leb_not_ltb x y : PrimFloat.leb x y = true → PrimFloat.ltb y x = false.
Proof.
  rewrite FloatAxioms.leb_spec, FloatAxioms.ltb_spec.
  unfold SpecFloat.SFleb, SpecFloat.SFltb.
  rewrite (SFcompare_antisym (FloatOps.Prim2SF x) (FloatOps.Prim2SF y)).
  by destruct (SpecFloat.SFcompare _ _) as [[]|].
Qed.

(** A float that differs from itself is [NaN], and [NaN] is below and above
    nothing. *)
Lemma is_nan_spec x : PrimFloat.is_nan x = true → FloatOps.Prim2SF x = SpecFloat.S754_nan.
Proof.
  unfold PrimFloat.is_nan. rewrite FloatAxioms.eqb_spec. unfold SpecFloat.SFeqb.
  intros H. destruct (FloatOps.Prim2SF x) as [s|s| |s m e] eqn:E; [| |done|].
  - by rewrite SFcompare_refl in H.
  - by rewrite SFcompare_refl in H.
  - by rewrite SFcompare_refl in H.
Qed.

Lemma ltb_nan_l x y : PrimFloat.is_nan x = true → PrimFloat.ltb x y = false.
Proof. intros H. rewrite FloatAxioms.ltb_spec, (is_nan_spec x H). reflexivity. Qed.

Lemma ltb_nan_r x y : PrimFloat.is_nan y = true → PrimFloat.ltb x y = false.
Proof.
  intros H. rewrite FloatAxioms.ltb_spec, (is_nan_spec y H).
  unfold SpecFloat.SFltb. by destruct (FloatOps.Prim2SF x).
Qed.

(** A comparison with a number is a comparison of numbers. *)
Lemma js_gt_Num StringToNumber v n :
  js_gt StringToNumber v (Num n) = PrimFloat.ltb n (ToNumber StringToNumber v).
Proof. reflexivity. Qed.

Lemma js_lt_Num StringToNumber v n :
  js_lt StringToNumber v (Num n) = PrimFloat.ltb (ToNumber StringToNumber v) n.
Proof. by destruct v. Qed.

Lemma js_lt_numeric StringToNumber a b :
  is_Str a && is_Str b = false →
  js_lt StringToNumber a b =
    PrimFloat.ltb (ToNumber StringToNumber a) (ToNumber StringToNumber b).
Proof. by destruct a, b. Qed.

Section RuleFacts.
Variable StringToNumber : string → float.

(** X1.  A value that converts to [NaN], such as a text that is no number,
    is accepted by both bound-check rules when the thresholds are not
    strings: no comparison with [NaN] holds. *)
Theorem not_a_number_is_accepted (f : Field) (v : jsvalue) :
  PrimFloat.is_nan (ToNumber StringToNumber v) = true →
  is_Str (eval_attr "validateNumberMax" f) = false →
  is_Str (eval_attr "validateNumberMin" f) = false →
  flag "validateNumberMax" (ctrl (maxValidator StringToNumber v f).2) = Some true ∧
  flag "validateNumberMin" (ctrl (minValidator StringToNumber v f).2) = Some true.
Proof.
  intros Hnan Hmax Hmin. rewrite maxValidator_run, minValidator_run. cbn [snd].
  rewrite !flag_setValidity. unfold max_verdict, min_verdict, js_gt.
  rewrite !js_lt_numeric by (by rewrite ?Hmax, ?Hmin, ?andb_false_r).
  rewrite (ltb_nan_r _ _ Hnan), (ltb_nan_l _ _ Hnan).
  by rewrite !andb_false_r.
Qed.

(** X2.  With numeric thresholds [lo <= hi], no value is rejected by both
    bound-check rules: what is above the maximum is not below the
    minimum. *)
Theorem bounds_exclusive (f : Field) (v : jsvalue) (lo hi : float) :
  eval_attr "validateNumberMax" f = Num hi →
  eval_attr "validateNumberMin" f = Num lo →
  PrimFloat.leb lo hi = true →
  ¬ (flag "validateNumberMax" (ctrl (maxValidator StringToNumber v f).2) = Some false ∧
     flag "validateNumberMin" (ctrl (minValidator StringToNumber v f).2) = Some false).
Proof.
  intros Hhi Hlo Hle. rewrite maxValidator_run, minValidator_run. cbn [snd].
  rewrite !flag_setValidity. unfold max_verdict, min_verdict.
  rewrite Hhi, Hlo, js_gt_Num, js_lt_Num. cbn [isDefined andb].
  intros [Hgt Hlt].
  assert (H1 : PrimFloat.ltb hi (ToNumber StringToNumber v) = true).
  { destruct (PrimFloat.ltb hi _); [done|]. by rewrite andb_false_r in Hgt. }
  assert (H2 : PrimFloat.ltb (ToNumber StringToNumber v) lo = true).
  { destruct (PrimFloat.ltb _ lo); [done|]. by rewrite andb_false_r in Hlt. }
  pose proof (ltb_trans _ _ _ H1 H2) as H3.
  by rewrite (leb_not_ltb _ _ Hle) in H3.
Qed.

(** X3.  The two bound-check validators can be evaluated in either order,
    and evaluating one again changes nothing: each verdict depends on the
    value and the threshold, not on the flags. *)
Theorem bound_checks_commute (f : Field) (v : jsvalue) :
  (let* w := maxValidator StringToNumber v in minValidator StringToNumber w) f =
  (let* w := minValidator StringToNumber v in maxValidator StringToNumber w) f ∧
  (let* w := maxValidator StringToNumber v in maxValidator StringToNumber w) f =
  maxValidator StringToNumber v f ∧
  (let* w := minValidator StringToNumber v in minValidator StringToNumber w) f =
  minValidator StringToNumber v f.
Proof.
  unfold bind. rewrite !maxValidator_run, !minValidator_run. cbv beta iota.
  rewrite ?maxValidator_run, ?minValidator_run.
  rewrite !(max_verdict_frame _ _ _ _ (field_frame_setValidity _ _ f)).
  rewrite !(min_verdict_frame _ _ _ _ (field_frame_setValidity _ _ f)).
  unfold with_ctrl, ctrl_setValidity, with_validity. cbn.
  split; [|split]; do 3 f_equal.
  - by apply insert_insert_ne.
  - apply insert_insert_eq.
  - apply insert_insert_eq.
Qed.

(** X5.  What [notBlank] withholds, the bound-check rules accept.  When
    the parser has replaced a value by [undefined], which the controller
    holds to be empty, both validators set their flag to true on its
    result, whatever the thresholds: a blank input is reported by
    [notBlank] alone. *)
Theorem withheld_value_is_accepted (v : jsvalue) (f : Field) :
  isEmpty (ctrl f) Undefined = true →
  v = Str "" ∨ (∃ b, v = Bool b) ∨ (∃ n, v = Num n) →
  ∃ f',
    (let* w := notBlank v in
     let* w := maxValidator StringToNumber w in
     minValidator StringToNumber w) f = (Normal Undefined, f') ∧
    flag "notBlank" (ctrl f') = Some false ∧
    flag "validateNumberMax" (ctrl f') = Some true ∧
    flag "validateNumberMin" (ctrl f') = Some true ∧
    field_frame f f'.
Proof.
  intros Hempty Hv.
  assert (Hnb : notBlank v f =
            (Normal Undefined, with_ctrl (ctrl_setValidity "notBlank" false) f)).
  { destruct Hv as [-> | [[b ->] | [n ->]]]; reflexivity. }
  unfold bind. rewrite Hnb, maxValidator_run, minValidator_run.
  set (f1 := with_ctrl (ctrl_setValidity "notBlank" false) f).
  set (f2 := with_ctrl _ f1).
  assert (H1 : max_verdict StringToNumber f1 Undefined = true).
  { unfold max_verdict. change (isEmpty (ctrl f1)) with (isEmpty (ctrl f)).
    by rewrite Hempty, andb_false_r. }
  assert (H2 : min_verdict StringToNumber f2 Undefined = true).
  { unfold min_verdict. change (isEmpty (ctrl f2)) with (isEmpty (ctrl f)).
    by rewrite Hempty, andb_false_r. }
  eexists. split; [reflexivity|]. rewrite H2. subst f2. rewrite H1.
  split; [|split; [|split]].
  - rewrite !flag_setValidity_ne by done. apply flag_setValidity.
  - rewrite flag_setValidity_ne by done. apply flag_setValidity.
  - apply flag_setValidity.
  - repeat split.
Qed.

End RuleFacts.

(** ** Pipelines of any hooks *)

Lemma run_hooks_app StringToNumber hs1 hs2 v f :
  run_hooks StringToNumber (hs1 ++ hs2) v f =
    (let* w := run_hooks StringToNumber hs1 v in run_hooks StringToNumber hs2 w) f.
Proof.
  revert v f. induction hs1 as [|h hs1 IH]; intros v f; [done|].
  cbn [app run_hooks]. unfold bind.
  destruct (run_hook StringToNumber h v f) as [[w|e] f1]; [|done].
  rewrite IH. done.
Qed.

(** Whether it returns or throws, a hook changes its own flag and nothing
    else. *)
Lemma run_hook_frame StringToNumber h v f :
  field_frame f (run_hook StringToNumber h v f).2 ∧
  ∀ key, key ≠ hook_key h →
         flag key (ctrl (run_hook StringToNumber h v f).2) = flag key (ctrl f).
Proof.
  destruct h; cbn [run_hook hook_key].
  - rewrite maxValidator_run. split; [apply field_frame_setValidity|].
    intros key Hkey. by apply flag_setValidity_ne.
  - rewrite minValidator_run. split; [apply field_frame_setValidity|].
    intros key Hkey. by apply flag_setValidity_ne.
  - unfold notBlank, bind, lift.
    destruct (length_truthy v) as [[]|e]; cbn;
      (split; [by repeat split|]); try done;
      intros key Hkey; by apply (flag_setValidity_ne "notBlank" key _ f).
Qed.

Section PipelineFacts.
Variable StringToNumber : string → float.

(** X6.  Whatever hooks are in a pipeline, and whether the pipeline
    completes or one of its hooks throws, it leaves the scope, the
    attributes, the observers, the values and the pipelines of the field as
    they were, and it leaves every validity flag that is not the flag of
    one of its hooks as it was. *)
Theorem hooks_write_only_their_flags (hs : list Hook) (v : jsvalue) (f : Field) :
  field_frame f (run_hooks StringToNumber hs v f).2 ∧
  ∀ key, (∀ h, h ∈ hs → hook_key h ≠ key) →
         flag key (ctrl (run_hooks StringToNumber hs v f).2) = flag key (ctrl f).
Proof.
  revert v f. induction hs as [|h hs IH]; intros v f.
  - split; [apply field_frame_refl|done].
  - cbn [run_hooks]. unfold bind.
    destruct (run_hook_frame StringToNumber h v f) as [Hfr Hflag].
    destruct (run_hook StringToNumber h v f) as [[w|e] f1]; cbn [snd] in *.
    + destruct (IH w f1) as [Hfr' Hflag']. split; [by eapply field_frame_trans|].
      intros key Hkey. rewrite Hflag', Hflag; [done| |].
      * apply not_eq_sym, Hkey, elem_of_cons. by left.
      * intros h' Hin. apply Hkey, elem_of_cons. by right.
    + split; [done|]. intros key Hkey. apply Hflag.
      apply not_eq_sym, Hkey, elem_of_cons. by left.
Qed.

(** *** The wiring that the link functions leave *)

Lemma link_all_cons d ds f : link_all (d :: ds) f = link_all ds (link d f).2.
Proof. reflexivity. Qed.

(** X7.  Whatever the directives of an element and the order in which
    their link functions run: the parsers of [notBlank] are in front of the
    parsers that were there, and the bound-check validators behind them, in
    the order of their links; the formatters and the observers get the
    bound-check validators only; and nothing else of the field changes,
    neither scope, attributes, values, flags, [$isEmpty] nor name. *)
Theorem link_order (ds : list Directive) (f0 : Field) :
  parsers (ctrl (link_all ds f0)) =
    reverse (omap unshifted_hook ds) ++ parsers (ctrl f0) ++ omap pushed_hook ds ∧
  formatters (ctrl (link_all ds f0)) = formatters (ctrl f0) ++ omap pushed_hook ds ∧
  observers (link_all ds f0) = observers f0 ++ omap registered_observer ds ∧
  Forall (λ h, h = notBlankFn) (omap unshifted_hook ds) ∧
  Forall (λ h, is_bound_check h = true) (omap pushed_hook ds) ∧
  scope (link_all ds f0) = scope f0 ∧ attrs (link_all ds f0) = attrs f0 ∧
  viewValue (ctrl (link_all ds f0)) = viewValue (ctrl f0) ∧
  modelValue (ctrl (link_all ds f0)) = modelValue (ctrl f0) ∧
  validity (ctrl (link_all ds f0)) = validity (ctrl f0) ∧
  isEmpty (ctrl (link_all ds f0)) = isEmpty (ctrl f0) ∧
  name (ctrl (link_all ds f0)) = name (ctrl f0).
Proof.
  revert f0. induction ds as [|d ds IH]; intros f0.
  - cbn. rewrite !app_nil_r. by repeat split.
  - rewrite link_all_cons.
    destruct (IH (link d f0).2)
      as (Hp & Hf & Ho & Hu & Hb & Hs & Ha & Hv & Hm & Hval & He & Hn).
    rewrite Hp, Hf, Ho, Hs, Ha, Hv, Hm, Hval, He, Hn.
    destruct d; cbn [omap list_omap unshifted_hook pushed_hook registered_observer];
      cbn [link validateNumberMax validateNumberMin notBlank_link snd bind modify
           parsers formatters observers scope attrs ctrl with_ctrl with_parsers
           with_formatters with_observers viewValue modelValue validity isEmpty
           name];
      rewrite ?reverse_cons, <- ?app_assoc; cbn [app];
      repeat split; try done; by constructor.
Qed.

(** *** Texts through the parsers of a linked field *)

Lemma run_notBlanks s hs f :
  s ≠ "" → Forall (λ h, h = notBlankFn) hs →
  ∃ f', run_hooks StringToNumber hs (Str s) f = (Normal (Str s), f') ∧
    field_frame f f' ∧
    (∀ key, key ≠ "notBlank" → flag key (ctrl f') = flag key (ctrl f)) ∧
    (hs ≠ [] → flag "notBlank" (ctrl f') = Some true).
Proof.
  intros Hs Hall. revert f. induction Hall as [|h hs -> _ IH]; intros f.
  - exists f. split; [done|]. split; [apply field_frame_refl|]. by split.
  - cbn [run_hooks run_hook]. unfold bind.
    assert (Hnb : notBlank (Str s) f =
              (Normal (Str s), with_ctrl (ctrl_setValidity "notBlank" true) f)).
    { unfold notBlank, bind, lift. by destruct s. }
    rewrite Hnb. destruct (IH (with_ctrl (ctrl_setValidity "notBlank" true) f))
      as (f' & Hrun & Hfr & Hother & Hflag).
    exists f'. split; [done|]. split.
    { eapply field_frame_trans; [apply field_frame_setValidity|done]. }
    split.
    + intros key Hkey. rewrite Hother by done. by apply flag_setValidity_ne.
    + intros _. destruct hs as [|h hs].
      * cbn in Hrun. injection Hrun as <-. apply flag_setValidity.
      * by apply Hflag.
Qed.

Lemma pushed_hook_max (ds : list Directive) : maxValidatorFn ∈ omap pushed_hook ds ↔ ValidateNumberMax ∈ ds.
Proof.
  rewrite list_elem_of_omap. split.
  - intros (d & Hin & Hd). by destruct d.
  - intros Hin. by exists ValidateNumberMax.
Qed.

Lemma pushed_hook_min (ds : list Directive) : minValidatorFn ∈ omap pushed_hook ds ↔ ValidateNumberMin ∈ ds.
Proof.
  rewrite list_elem_of_omap. split.
  - intros (d & Hin & Hd). by destruct d.
  - intros Hin. by exists ValidateNumberMin.
Qed.

Lemma unshifted_hook_nil (ds : list Directive) : omap unshifted_hook ds ≠ [] ↔ NotBlank ∈ ds.
Proof.
  split.
  - intros Hne. destruct (omap unshifted_hook ds) as [|h hs] eqn:E; [done|].
    assert (Hin : h ∈ omap unshifted_hook ds) by (rewrite E; apply elem_of_cons; by left).
    apply list_elem_of_omap in Hin as (d & Hin & Hd). by destruct d.
  - intros Hin Hnil.
    assert (H : notBlankFn ∈ omap unshifted_hook ds).
    { apply list_elem_of_omap. by exists NotBlank. }
    rewrite Hnil in H. by apply elem_of_nil in H.
Qed.

(** X8.  On a field with any of the three directives, linked in any order,
    a text that is not empty goes through the parsers unchanged and becomes
    the model value; [notBlank], when it is there, sets its flag to true,
    and each bound-check rule that is there sets its flag to its verdict on
    the text. *)
Theorem text_through_directives (ds : list Directive) (f0 f : Field) (s : string) :
  parsers (ctrl f0) = [] →
  s ≠ "" →
  same_wiring (link_all ds f0) f →
  ∃ f', fire StringToNumber (ViewChange (Str s)) f = (Normal tt, f') ∧
    viewValue (ctrl f') = Str s ∧ modelValue (ctrl f') = Str s ∧
    (NotBlank ∈ ds → flag "notBlank" (ctrl f') = Some true) ∧
    (ValidateNumberMax ∈ ds →
     flag "validateNumberMax" (ctrl f') = Some (max_verdict StringToNumber f (Str s))) ∧
    (ValidateNumberMin ∈ ds →
     flag "validateNumberMin" (ctrl f') = Some (min_verdict StringToNumber f (Str s))).
Proof.
  intros Hnil Hs (Hfp & _ & _).
  destruct (link_order ds f0) as (Hp & _ & _ & Hu & Hb & _).
  rewrite Hp, Hnil in Hfp. cbn [app] in Hfp.
  unfold fire, bind, modify, get.
  set (fv := with_ctrl (with_viewValue (Str s)) f).
  change (parsers (ctrl fv)) with (parsers (ctrl f)). rewrite Hfp, run_hooks_app.
  unfold bind.
  destruct (run_notBlanks s (reverse (omap unshifted_hook ds)) fv Hs)
    as (f1 & -> & Hfr1 & Hother1 & Hnb); [by apply Forall_reverse|].
  destruct (run_hooks_bound_check StringToNumber (omap pushed_hook ds) (Str s) f1 Hb)
    as (f2 & -> & Hfr2 & Hmax & Hmin & Hrest).
  eexists. split; [done|].
  destruct Hfr1 as (Hs1 & Ha1 & _ & _ & Hv1 & _ & _ & _ & He1).
  destruct Hfr2 as (_ & _ & _ & _ & Hv2 & _).
  split; [cbn; by rewrite Hv2, Hv1|]. split; [done|]. split; [|split].
  - intros Hin. change (flag "notBlank" (ctrl f2) = Some true).
    rewrite Hrest by done. apply Hnb.
    intros Hrev. apply (f_equal reverse) in Hrev. rewrite reverse_involutive in Hrev.
    by apply unshifted_hook_nil in Hin.
  - intros Hin. change (flag "validateNumberMax" (ctrl f2) = Some (max_verdict StringToNumber f (Str s))).
    rewrite Hmax, decide_True by (by apply pushed_hook_max). f_equal.
    by apply max_verdict_ext.
  - intros Hin. change (flag "validateNumberMin" (ctrl f2) = Some (min_verdict StringToNumber f (Str s))).
    rewrite Hmin, decide_True by (by apply pushed_hook_min). f_equal.
    by apply min_verdict_ext.
Qed.

End PipelineFacts.

(** ** Observers and their attributes *)

Section ObserverFacts.
Variable StringToNumber : string → float.

(** Observers that write the flag named like their attribute leave the
    other flags alone. *)
Lemma run_observers_keyed key os f :
  Forall (λ e, observer_key e.2 = e.1) os →
  ∃ f', run_observers StringToNumber key os f = (Normal tt, f') ∧ field_frame f f' ∧
    ∀ k, k ≠ key → flag k (ctrl f') = flag k (ctrl f).
Proof.
  intros Hall. revert f. induction Hall as [|[k o] os Hk _ IH]; intros f.
  - exists f. split; [done|]. split; [apply field_frame_refl|done].
  - cbn in Hk. cbn [run_observers]. unfold bind.
    destruct (String.eqb_spec k key) as [-> | Hne].
    + assert (Hrun : ∃ b, run_observer StringToNumber o f =
                (Normal tt, with_ctrl (ctrl_setValidity key b) f)).
      { destruct o; cbn in Hk; subst key; cbn [run_observer]; unfold bind, get, ret.
        - rewrite maxValidator_run. by eexists.
        - rewrite minValidator_run. by eexists. }
      destruct Hrun as (b & ->).
      destruct (IH (with_ctrl (ctrl_setValidity key b) f)) as (f' & Hrun & Hfr & Hflag).
      exists f'. split; [done|]. split.
      { eapply field_frame_trans; [apply field_frame_setValidity|done]. }
      intros k' Hk'. rewrite Hflag by done. by apply flag_setValidity_ne.
    + unfold ret. apply IH.
Qed.

(** X9.  On a field with any of the three directives, a change of an
    attribute completes, leaves the view and the model value as they are,
    and changes no validity flag but the one named like the attribute: a
    new minimum does not evaluate the max rule again, and the text of
    another attribute evaluates no rule. *)
Theorem attribute_change_is_local (ds : list Directive) (f0 f : Field)
    (key text k : string) :
  observers f0 = [] →
  same_wiring (link_all ds f0) f →
  k ≠ key →
  ∃ f', fire StringToNumber (AttrChange key text) f = (Normal tt, f') ∧
    viewValue (ctrl f') = viewValue (ctrl f) ∧
    modelValue (ctrl f') = modelValue (ctrl f) ∧
    flag k (ctrl f') = flag k (ctrl f).
Proof.
  intros Hnil (_ & _ & Hfo) Hk.
  destruct (link_order ds f0) as (_ & _ & Ho & _).
  rewrite Ho, Hnil in Hfo. cbn [app] in Hfo.
  unfold fire, bind, modify, get.
  set (fa := with_attrs (insert key text) f).
  change (observers fa) with (observers f). rewrite Hfo.
  destruct (run_observers_keyed key (omap registered_observer ds) fa)
    as (f' & -> & Hfr & Hflag).
  { apply Forall_forall. intros e He. apply list_elem_of_In in He.
    apply list_elem_of_omap in He as (d & _ & Hd). destruct d; by inversion Hd. }
  exists f'. split; [done|].
  destruct Hfr as (_ & _ & _ & _ & Hv & Hm & _).
  split; [exact Hv|]. split; [exact Hm|]. by apply Hflag.
Qed.

End ObserverFacts.

(** ** The events of the match rule *)

(** Handlers bound to other event types are passed over. *)
Lemma run_handlers_other_types ty hs pg :
  Forall (λ e, e.1 ≠ ty) hs → run_handlers ty hs pg = (Normal tt, pg).
Proof.
  intros Hall. revert pg. induction Hall as [|[t h] hs Ht _ IH]; intros pg; [done|].
  cbn in Ht. cbn [run_handlers]. unfold bind.
  destruct (String.eqb_spec t ty) as [-> | _]; [done|]. unfold ret. apply IH.
Qed.

(** What [on] adds to an element: nothing when the element is not in the
    set, and bindings to the named event types otherwise. *)
Lemma on_listeners_types els types h pg el :
  ∃ mid, listeners (on els types h pg).2 el = listeners pg el ++ mid ∧
    Forall (λ e, e.1 ∈ String.words types) mid ∧
    (el ∉ els → mid = []).
Proof.
  unfold on, modify. cbn [snd listeners with_listeners].
  generalize (listeners pg). intros ls.
  revert ls. induction els as [|e els IH]; intros ls.
  - exists []. rewrite app_nil_r. by repeat split.
  - cbn [foldl]. destruct (IH (<[e := bind_types (String.words types) h (ls e)]> ls))
      as (mid & Hl & Hall & Hnot).
    destruct (decide (e = el)) as [-> | Hne].
    + rewrite fn_lookup_insert in Hl. unfold bind_types in Hl.
      rewrite <- app_assoc in Hl. eexists. split; [exact Hl|]. split.
      * apply Forall_app. split; [|done]. apply Forall_fmap, Forall_forall.
        intros ty Hty. by apply list_elem_of_In.
      * intros Hel. exfalso. apply Hel, elem_of_cons. by left.
    + rewrite fn_lookup_insert_ne in Hl by done.
      exists mid. split; [done|]. split; [done|].
      intros Hel. apply Hnot. intros Hin. apply Hel, elem_of_cons. by right.
Qed.

Section EventFacts.
Variable jQuery : string → list nat.

(** X10.  The link function of [hzPasswordMatch] binds [passwordCheck] to
    [keyup] and [change], on the element of the directive and on the
    elements that the selector found, and to nothing else.  On an element
    that had no handler, an event of another type, and any event on another
    element, completes and leaves the page as it is: no flag is written and
    the comparison is not made. *)
Theorem only_keyup_and_change (pg0 : Page) (element ctrl pw el : nat) (ty : string) :
  listeners pg0 el = [] →
  (ty ≠ "keyup" ∧ ty ≠ "change") ∨
  (el ≠ element ∧ el ∉ jQuery (id_selector (name (controllers pg0 pw)))) →
  ∃ pg1, hzPasswordMatch jQuery element ctrl (Some pw) pg0 = (Normal tt, pg1) ∧
    ∀ cs, dispatch el ty (mkPage cs (listeners pg1))
          = (Normal tt, mkPage cs (listeners pg1)).
Proof.
  intros Hnone Hcase.
  set (h := passwordCheckFn ctrl (Some pw)).
  set (els := jQuery (id_selector (name (controllers pg0 pw)))).
  set (pgA := (on els "keyup change" h pg0).2).
  exists (on [element] "keyup change" h pgA).2. split; [reflexivity|].
  intros cs. rewrite dispatch_run. cbn [listeners].
  destruct (on_listeners_types els "keyup change" h pg0 el) as (m1 & Hl1 & Hall1 & Hnot1).
  destruct (on_listeners_types [element] "keyup change" h pgA el)
    as (m2 & Hl2 & Hall2 & Hnot2).
  rewrite Hl2. unfold pgA at 1. rewrite Hl1, Hnone. cbn [app].
  apply run_handlers_other_types.
  destruct Hcase as [[Hk Hc] | [He Hs]].
  - rewrite words_keyup_change in Hall1, Hall2.
    apply Forall_app. split.
    + eapply Forall_impl; [|exact Hall1]. intros e Hin Heq. cbv beta in Hin. rewrite Heq in Hin.
      apply elem_of_cons in Hin as [?|Hin]; [done|].
      by apply list_elem_of_singleton in Hin.
    + eapply Forall_impl; [|exact Hall2]. intros e Hin Heq. cbv beta in Hin. rewrite Heq in Hin.
      apply elem_of_cons in Hin as [?|Hin]; [done|].
      by apply list_elem_of_singleton in Hin.
  - rewrite Hnot1 by done. rewrite Hnot2; [constructor|].
    intros Hin. by apply list_elem_of_singleton in Hin.
Qed.

(** X11.  A missing reference is not handled by the rule.  When
    [scope.pw] is [undefined], the link function throws a [TypeError]
    before it binds a handler, and the function given to [scope.$apply]
    throws it before it writes the flag; [scope.$apply] catches it, so
    [passwordCheck] returns without a comparison.  On a page whose handlers
    all lack their reference, every event completes and leaves the page as
    it is, and no sequence of events and of changes of the model values
    changes a validity flag. *)
Theorem missing_reference (pg : Page) (element ctrl : nat)
    (evs : list PageEvent) (r : nat) :
  (∀ el, Forall (λ e, handler_pw e.2 = None) (listeners pg el)) →
  hzPasswordMatch jQuery element ctrl None pg = (Throw TypeError, pg) ∧
  passwordCheck_callback ctrl None pg = (Throw TypeError, pg) ∧
  passwordCheck ctrl None pg = (Normal tt, pg) ∧
  (∀ el ty, dispatch el ty pg = (Normal tt, pg)) ∧
  validity (controllers (run_page evs pg) r) = validity (controllers pg r).
Proof.
  intros Hall. split; [done|]. split; [done|]. split; [done|].
  assert (Hrun : ∀ (pg : Page) ty hs,
            Forall (λ e, handler_pw e.2 = None) hs →
            run_handlers ty hs pg = (Normal tt, pg)).
  { intros pg' ty hs Hhs. induction Hhs as [|[t [c p]] hs Hp _ IHhs]; [done|].
    cbn in Hp. subst p. cbn [run_handlers run_handler]. unfold bind.
    destruct (String.eqb t ty); [rewrite passwordCheck_unbound|unfold ret];
      exact IHhs. }
  split.
  { intros el ty. rewrite dispatch_run. by apply Hrun. }
  revert pg Hall. induction evs as [|ev evs IH]; intros pg Hall; [done|].
  change (run_page (ev :: evs) pg) with (run_page evs (page_step pg ev)).
  assert (Hstep : listeners (page_step pg ev) = listeners pg ∧
                  validity (controllers (page_step pg ev) r) = validity (controllers pg r)).
  { destruct ev as [el ty|r0 v]; cbn [page_step].
    - rewrite dispatch_run. by rewrite (Hrun pg ty _ (Hall el)).
    - split; [done|]. cbn [controllers with_controllers].
      destruct (decide (r0 = r)) as [-> | Hne].
      + by rewrite fn_lookup_insert.
      + by rewrite fn_lookup_insert_ne. }
  destruct Hstep as [Hl Hv]. rewrite IH, Hv; [done|].
  intros el. rewrite Hl. apply Hall.
Qed.

End EventFacts.

(** ** The further properties at concrete inputs *)

Lemma not_a_number_is_accepted_witness :
  PrimFloat.is_nan (ToNumber digitsToNumber (Str "abc")) = true ∧
  is_Str (eval_attr "validateNumberMax" range_field) = false ∧
  is_Str (eval_attr "validateNumberMin" range_field) = false ∧
  flag "validateNumberMax"
    (ctrl (maxValidator digitsToNumber (Str "abc") range_field).2) = Some true ∧
  flag "validateNumberMin"
    (ctrl (minValidator digitsToNumber (Str "abc") range_field).2) = Some true.
Proof.
  split; [reflexivity|]. split; [reflexivity|]. split; [reflexivity|].
  apply (not_a_number_is_accepted digitsToNumber range_field (Str "abc"));
    reflexivity.
Defined.

Lemma bounds_exclusive_witness :
  eval_attr "validateNumberMax" range_field = Num 20%float ∧
  eval_attr "validateNumberMin" range_field = Num 10%float ∧
  PrimFloat.leb 10%float 20%float = true ∧
  ¬ (flag "validateNumberMax"
       (ctrl (maxValidator digitsToNumber (Num 25%float) range_field).2) = Some false ∧
     flag "validateNumberMin"
       (ctrl (minValidator digitsToNumber (Num 25%float) range_field).2) = Some false).
Proof.
  split; [reflexivity|]. split; [reflexivity|]. split; [reflexivity|].
  apply (bounds_exclusive digitsToNumber range_field (Num 25%float) 10%float 20%float);
    reflexivity.
Defined.

Lemma withheld_value_is_accepted_witness :
  isEmpty (ctrl quota_field) Undefined = true ∧
  ∃ f',
    (let* w := notBlank (Str "") in
     let* w := maxValidator digitsToNumber w in
     minValidator digitsToNumber w) quota_field = (Normal Undefined, f') ∧
    flag "notBlank" (ctrl f') = Some false ∧
    flag "validateNumberMax" (ctrl f') = Some true ∧
    flag "validateNumberMin" (ctrl f') = Some true ∧
    field_frame quota_field f'.
Proof.
  split; [reflexivity|].
  apply (withheld_value_is_accepted digitsToNumber (Str "") quota_field);
    [reflexivity|by left].
Defined.

Lemma hooks_write_only_their_flags_witness :
  (∀ h, h ∈ [maxValidatorFn; minValidatorFn] → hook_key h ≠ "notBlank") ∧
  flag "notBlank"
    (ctrl (run_hooks digitsToNumber [maxValidatorFn; minValidatorFn]
             (Str "11") quota_field).2) = flag "notBlank" (ctrl quota_field).
Proof.
  assert (H : ∀ h, h ∈ [maxValidatorFn; minValidatorFn] → hook_key h ≠ "notBlank").
  { intros h Hin. apply elem_of_cons in Hin as [-> | Hin]; [done|].
    apply list_elem_of_singleton in Hin as ->. done. }
  split; [exact H|].
  apply (hooks_write_only_their_flags digitsToNumber
           [maxValidatorFn; minValidatorFn] (Str "11") quota_field).
  exact H.
Defined.

Lemma text_through_directives_witness :
  parsers (ctrl quota_field) = [] ∧ "11" ≠ "" ∧
  ∃ f', fire digitsToNumber (ViewChange (Str "11"))
          (link_all [ValidateNumberMax; NotBlank; ValidateNumberMin] quota_field)
        = (Normal tt, f') ∧
    viewValue (ctrl f') = Str "11" ∧ modelValue (ctrl f') = Str "11" ∧
    flag "notBlank" (ctrl f') = Some true ∧
    flag "validateNumberMax" (ctrl f') = Some false ∧
    flag "validateNumberMin" (ctrl f') = Some true.
Proof.
  split; [reflexivity|]. split; [discriminate|].
  destruct (text_through_directives digitsToNumber
              [ValidateNumberMax; NotBlank; ValidateNumberMin] quota_field
              (link_all [ValidateNumberMax; NotBlank; ValidateNumberMin] quota_field)
              "11") as (f' & Hrun & Hv & Hm & Hnb & Hmax & Hmin);
    [reflexivity|discriminate|by repeat split|].
  exists f'. split; [exact Hrun|]. split; [exact Hv|]. split; [exact Hm|].
  split; [|split].
  - apply Hnb. apply elem_of_cons. right. apply elem_of_cons. by left.
  - apply Hmax. apply elem_of_cons. by left.
  - apply Hmin. apply elem_of_cons. right. apply elem_of_cons. right.
    apply elem_of_cons. by left.
Defined.

Lemma attribute_change_is_local_witness :
  observers quota_field = [] ∧ "validateNumberMax" ≠ "validateNumberMin" ∧
  ∃ f', fire digitsToNumber (AttrChange "validateNumberMin" "20") quota_linked
        = (Normal tt, f') ∧
    viewValue (ctrl f') = viewValue (ctrl quota_linked) ∧
    modelValue (ctrl f') = modelValue (ctrl quota_linked) ∧
    flag "validateNumberMax" (ctrl f') = flag "validateNumberMax" (ctrl quota_linked).
Proof.
  split; [reflexivity|]. split; [discriminate|].
  apply (attribute_change_is_local digitsToNumber
           [ValidateNumberMax; ValidateNumberMin] quota_field quota_linked
           "validateNumberMin" "20" "validateNumberMax");
    [reflexivity|by repeat split|discriminate].
Defined.

Lemma only_keyup_and_change_witness :
  listeners form_page 0 = [] ∧ "input" ≠ "keyup" ∧ "input" ≠ "change" ∧
  ∃ pg1, hzPasswordMatch form_jQuery 1 1 (Some 0) form_page = (Normal tt, pg1) ∧
    ∀ cs, dispatch 0 "input" (mkPage cs (listeners pg1))
          = (Normal tt, mkPage cs (listeners pg1)).
Proof.
  split; [reflexivity|]. split; [discriminate|]. split; [discriminate|].
  apply (only_keyup_and_change form_jQuery form_page 1 1 0 0 "input");
    [reflexivity|left; split; discriminate].
Defined.

Lemma missing_reference_witness :
  (∀ el, Forall (λ e, handler_pw e.2 = None) (listeners orphan_page el)) ∧
  listeners orphan_page 1 =
    [("keyup", passwordCheckFn 1 None); ("change", passwordCheckFn 1 None)] ∧
  hzPasswordMatch form_jQuery 1 1 None orphan_page = (Throw TypeError, orphan_page) ∧
  passwordCheck_callback 1 None orphan_page = (Throw TypeError, orphan_page) ∧
  passwordCheck 1 None orphan_page = (Normal tt, orphan_page) ∧
  (∀ el ty, dispatch el ty orphan_page = (Normal tt, orphan_page)) ∧
  validity (controllers
              (run_page [DomEvent 1 "keyup"; ModelInput 0 (Str "x"); DomEvent 1 "change"]
                 orphan_page) 1)
    = validity (controllers orphan_page 1).
Proof.
  assert (H : ∀ el, Forall (λ e, handler_pw e.2 = None) (listeners orphan_page el)).
  { intros el. cbn. destruct (Nat.eqb el 1); repeat constructor. }
  split; [exact H|]. split; [reflexivity|].
  exact (missing_reference form_jQuery orphan_page 1 1
           [DomEvent 1 "keyup"; ModelInput 0 (Str "x"); DomEvent 1 "change"] 1 H).
Defined.
